(** * 500 WPM reader backend: the ingestion pipeline of [backend/main.py]

    A shallow embedding of the URL validator, the size-bounded fetcher, the
    format detector, the two document parsers and the request handler
    [process_file], followed by the properties of the pipeline.

    Python values are modelled as follows.
    - [str] is a list of Unicode code points ([Z]); literals are written
      [lit "..."].
    - [bytes] is a list of [Byte.byte].
    - A call that may raise returns a [result]; the exception is a value of
      [exn].
    - The file system touched by the EPUB parser is a [gmap] from paths to
      contents, threaded through the parser explicitly.
    - Everything the module obtains from its collaborators (urllib, the DNS
      resolver, requests, ebooklib, BeautifulSoup, tempfile) is a field of
      the record [Env]; the functions of the module are defined in a
      section over an arbitrary [Env]. *)

From Stdlib Require Import ZArith List String Ascii Bool Lia.
From Stdlib.Strings Require Import Byte.
From Stdlib Require Import DecimalString.
From stdpp Require Import gmap.

Set Warnings "-register-all".
Open Scope Z_scope.

(** ** Python strings *)

Module Py.

Abbreviation str := (list Z).
Abbreviation bytes := (list byte).

(** A string literal, as the list of the code points of its characters. *)
Definition lit (s : string) : str :=
  map (fun a => Z.of_N (N_of_ascii a)) (list_ascii_of_string s).
Arguments lit s%_string.

Definition byte_val (b : byte) : Z := Z.of_N (Byte.to_N b).

(** [a == b] on strings. *)
Fixpoint str_eqb (a b : str) : bool :=
  match a, b with
  | [], [] => true
  | x :: a', y :: b' => (x =? y) && str_eqb a' b'
  | _, _ => false
  end.

(** [s in [a, b, ...]]. *)
Definition str_in (s : str) (l : list str) : bool := existsb (str_eqb s) l.

(** [str.lower()]. The model lowers the letters A-Z and leaves every other
    code point unchanged; the program compares lowered strings only with
    [localhost], [0.0.0.0], [.txt] and [.epub], whose letters are the image
    of no other code point than their ASCII capital. *)
Definition lower_char (c : Z) : Z :=
  if (65 <=? c) && (c <=? 90) then c + 32 else c.
Definition lower (s : str) : str := map lower_char s.

(** The characters [str.strip()] and [str.split()] treat as white space
    ([str.isspace]). *)
Definition isspace (c : Z) : bool :=
  ((9 <=? c) && (c <=? 13)) || ((28 <=? c) && (c <=? 32))
  || (c =? 133) || (c =? 160) || (c =? 5760)
  || ((8192 <=? c) && (c <=? 8202))
  || (c =? 8232) || (c =? 8233) || (c =? 8239) || (c =? 8287)
  || (c =? 12288).

Fixpoint lstrip (s : str) : str :=
  match s with
  | c :: r => if isspace c then lstrip r else s
  | [] => []
  end.
Definition rstrip (s : str) : str := rev (lstrip (rev s)).
(** [str.strip()]. *)
Definition strip (s : str) : str := rstrip (lstrip s).

(** [str.split()]: the maximal runs of characters that are not white
    space. [cur] is the run being read, reversed. *)
Fixpoint split_ws_from (cur : str) (s : str) : list str :=
  match s with
  | [] => match cur with [] => [] | _ => [rev cur] end
  | c :: r =>
      if isspace c
      then match cur with
           | [] => split_ws_from [] r
           | _ => rev cur :: split_ws_from [] r
           end
      else split_ws_from (c :: cur) r
  end.
Definition split_ws (s : str) : list str := split_ws_from [] s.

(** [str.split(sep)] for a separator of one character. *)
Fixpoint split_on (sep : Z) (s : str) : list str :=
  match s with
  | [] => [[]]
  | c :: r =>
      if c =? sep then [] :: split_on sep r
      else match split_on sep r with
           | h :: t => (c :: h) :: t
           | [] => [[c]]
           end
  end.

(** [str.split("  ")], the separator being two spaces: occurrences are
    taken from the left and do not overlap. *)
Fixpoint split_2sp (s : str) : list str :=
  match s with
  | [] => [[]]
  | c :: r =>
      match r with
      | d :: r' =>
          if (c =? 32) && (d =? 32) then [] :: split_2sp r'
          else match split_2sp r with
               | h :: t => (c :: h) :: t
               | [] => [[c]]
               end
      | [] => [[c]]
      end
  end.

(** The line boundaries of [str.splitlines()]. *)
Definition islinebreak (c : Z) : bool :=
  ((10 <=? c) && (c <=? 13)) || ((28 <=? c) && (c <=? 30))
  || (c =? 133) || (c =? 8232) || (c =? 8233).

(** [str.splitlines()]: CR LF is one boundary, and a final boundary opens
    no empty last line. *)
Fixpoint splitlines_from (cur : str) (s : str) : list str :=
  match s with
  | [] => match cur with [] => [] | _ => [rev cur] end
  | c :: r =>
      if islinebreak c then
        match r with
        | d :: r' =>
            if (c =? 13) && (d =? 10) then rev cur :: splitlines_from [] r'
            else rev cur :: splitlines_from [] r
        | [] => [rev cur]
        end
      else splitlines_from (c :: cur) r
  end.
Definition splitlines (s : str) : list str := splitlines_from [] s.

(** [sep.join(l)]. *)
Fixpoint join (sep : str) (l : list str) : str :=
  match l with
  | [] => []
  | [x] => x
  | x :: r => x ++ sep ++ join sep r
  end.

Fixpoint startswith (s p : str) : bool :=
  match p, s with
  | [], _ => true
  | y :: p', x :: s' => (x =? y) && startswith s' p'
  | _ :: _, [] => false
  end.
(** [s.endswith(suf)]. *)
Definition endswith (s suf : str) : bool := startswith (rev s) (rev suf).

(** [sub in s] on strings. *)
Fixpoint contains (sub s : str) : bool :=
  startswith s sub ||
  match s with
  | [] => false
  | _ :: r => contains sub r
  end.

(** [l[-1]] and [l[0]] on the non-empty lists [str.split(sep)] returns. *)
Definition last_of (l : list str) : str := List.last l [].
Definition first_of (l : list str) : str := List.hd [] l.

(** [str(n)] for a natural number, as in [f"Chapter {n}"]. *)
Definition str_of_nat (n : nat) : str :=
  lit (NilEmpty.string_of_uint (Nat.to_uint n)).

(** [len(x)]. *)
Definition len {A} (l : list A) : Z := Z.of_nat (length l).

(** An ASCII digit. *)
Definition isdigit (c : Z) : bool := (48 <=? c) && (c <=? 57).

(** *** [int(s)] on a string, and [repr(s)]

    The conversion of CPython 3.11 ([PyLong_FromUnicodeObject], base 10,
    with the tables of Unicode 14.0). White space around the number is
    skipped, one sign is allowed, and the digits are decimal digits of any
    script, with single underscores allowed between digits. A number of
    more than 4300 digits is refused ([sys.int_info.default_max_str_digits]).
    Both refusals are a [ValueError]; its text is built further down, with
    the exceptions. *)

(** The white space [int] skips: that of [str.strip()] but U+001C to
    U+001F. ([int] skips the white space of C, and white space outside
    ASCII after turning it into a space.) *)
Definition int_isspace (c : Z) : bool :=
  isspace c && negb ((28 <=? c) && (c <=? 31)).

Fixpoint int_skip (s : str) : str :=
  match s with
  | c :: r => if int_isspace c then int_skip r else s
  | [] => []
  end.

(** The digit zero of every decimal system (Unicode category Nd); the nine
    code points after each are its digits 1 to 9. *)
Definition DECIMAL_ZEROS : list Z :=
  [
    48; 1632; 1776; 1984; 2406; 2534; 2662; 2790; 2918; 3046; 3174; 3302;
    3430; 3558; 3664; 3792; 3872; 4160; 4240; 6112; 6160; 6470; 6608; 6784;
    6800; 6992; 7088; 7232; 7248; 42528; 43216; 43264; 43472; 43504; 43600;
    44016; 65296; 66720; 68912; 69734; 69872; 69942; 70096; 70384; 70736;
    70864; 71248; 71360; 71472; 71904; 72016; 72784; 73040; 73120; 92768;
    92864; 93008; 120782; 120792; 120802; 120812; 120822; 123200; 123632;
    125264; 130032 ].

(** [unicodedata.decimal(c)]. *)
Definition decimal (c : Z) : option Z :=
  option_map (fun zero => c - zero)
             (List.find (fun zero => (zero <=? c) && (c <? zero + 10))
                        DECIMAL_ZEROS).

(** [scan_digits acc digits prev s] reads the run of digits and underscores
    at the head of [s]: it gives the value of the run, the number of its
    digits and what follows it, and nothing when two underscores meet or
    the run ends with one. [prev] tells that the previous character was an
    underscore. *)
Fixpoint scan_digits (acc : Z) (digits : nat) (prev : bool) (s : str)
  : option (Z * nat * str) :=
  match s with
  | [] => if prev then None else Some (acc, digits, [])
  | c :: r =>
      match decimal c with
      | Some d => scan_digits (10 * acc + d) (S digits) false r
      | None =>
          if c =? 95 then
            if prev then None else scan_digits acc digits true r
          else if prev then None else Some (acc, digits, s)
      end
  end.

Definition INT_MAX_STR_DIGITS : nat := 4300.

Inductive int_outcome :=
| IntValue (n : Z)
| InvalidLiteral
| TooManyDigits (digits : nat).

(** The steps of [PyLong_FromString], in its order: leading white space,
    the sign, no underscore at the head, the run of digits, the limit on
    their number, at least one digit, trailing white space, the end. *)
Definition int_parse (s : str) : int_outcome :=
  let s := int_skip s in
  let '(negative, s) :=
    match s with
    | c :: r => if c =? 43 then (false, r)
                else if c =? 45 then (true, r)
                else (false, s)
    | [] => (false, s)
    end in
  match s with
  | [] => InvalidLiteral
  | c :: _ =>
      if c =? 95 then InvalidLiteral
      else
        match scan_digits 0 0 false s with
        | None => InvalidLiteral
        | Some (n, digits, rest) =>
            if (INT_MAX_STR_DIGITS <? digits)%nat then TooManyDigits digits
            else
              match digits, int_skip rest with
              | S _, [] => IntValue (if negative then - n else n)
              | _, _ => InvalidLiteral
              end
        end
  end.

(** The ranges of the code points that are not printable
    ([str.isprintable]): the categories Cc, Cf, Cs, Co, Cn, Zl, Zp and Zs,
    the space apart. *)
Definition NONPRINTABLE : list (Z * Z) :=
  [
    (0, 31); (127, 160); (173, 173); (888, 889); (896, 899); (907, 907);
    (909, 909); (930, 930); (1328, 1328); (1367, 1368); (1419, 1420);
    (1424, 1424); (1480, 1487); (1515, 1518); (1525, 1541); (1564, 1564);
    (1757, 1757); (1806, 1807); (1867, 1868); (1970, 1983); (2043, 2044);
    (2094, 2095); (2111, 2111); (2140, 2141); (2143, 2143); (2155, 2159);
    (2191, 2199); (2274, 2274); (2436, 2436); (2445, 2446); (2449, 2450);
    (2473, 2473); (2481, 2481); (2483, 2485); (2490, 2491); (2501, 2502);
    (2505, 2506); (2511, 2518); (2520, 2523); (2526, 2526); (2532, 2533);
    (2559, 2560); (2564, 2564); (2571, 2574); (2577, 2578); (2601, 2601);
    (2609, 2609); (2612, 2612); (2615, 2615); (2618, 2619); (2621, 2621);
    (2627, 2630); (2633, 2634); (2638, 2640); (2642, 2648); (2653, 2653);
    (2655, 2661); (2679, 2688); (2692, 2692); (2702, 2702); (2706, 2706);
    (2729, 2729); (2737, 2737); (2740, 2740); (2746, 2747); (2758, 2758);
    (2762, 2762); (2766, 2767); (2769, 2783); (2788, 2789); (2802, 2808);
    (2816, 2816); (2820, 2820); (2829, 2830); (2833, 2834); (2857, 2857);
    (2865, 2865); (2868, 2868); (2874, 2875); (2885, 2886); (2889, 2890);
    (2894, 2900); (2904, 2907); (2910, 2910); (2916, 2917); (2936, 2945);
    (2948, 2948); (2955, 2957); (2961, 2961); (2966, 2968); (2971, 2971);
    (2973, 2973); (2976, 2978); (2981, 2983); (2987, 2989); (3002, 3005);
    (3011, 3013); (3017, 3017); (3022, 3023); (3025, 3030); (3032, 3045);
    (3067, 3071); (3085, 3085); (3089, 3089); (3113, 3113); (3130, 3131);
    (3141, 3141); (3145, 3145); (3150, 3156); (3159, 3159); (3163, 3164);
    (3166, 3167); (3172, 3173); (3184, 3190); (3213, 3213); (3217, 3217);
    (3241, 3241); (3252, 3252); (3258, 3259); (3269, 3269); (3273, 3273);
    (3278, 3284); (3287, 3292); (3295, 3295); (3300, 3301); (3312, 3312);
    (3315, 3327); (3341, 3341); (3345, 3345); (3397, 3397); (3401, 3401);
    (3408, 3411); (3428, 3429); (3456, 3456); (3460, 3460); (3479, 3481);
    (3506, 3506); (3516, 3516); (3518, 3519); (3527, 3529); (3531, 3534);
    (3541, 3541); (3543, 3543); (3552, 3557); (3568, 3569); (3573, 3584);
    (3643, 3646); (3676, 3712); (3715, 3715); (3717, 3717); (3723, 3723);
    (3748, 3748); (3750, 3750); (3774, 3775); (3781, 3781); (3783, 3783);
    (3790, 3791); (3802, 3803); (3808, 3839); (3912, 3912); (3949, 3952);
    (3992, 3992); (4029, 4029); (4045, 4045); (4059, 4095); (4294, 4294);
    (4296, 4300); (4302, 4303); (4681, 4681); (4686, 4687); (4695, 4695);
    (4697, 4697); (4702, 4703); (4745, 4745); (4750, 4751); (4785, 4785);
    (4790, 4791); (4799, 4799); (4801, 4801); (4806, 4807); (4823, 4823);
    (4881, 4881); (4886, 4887); (4955, 4956); (4989, 4991); (5018, 5023);
    (5110, 5111); (5118, 5119); (5760, 5760); (5789, 5791); (5881, 5887);
    (5910, 5918); (5943, 5951); (5972, 5983); (5997, 5997); (6001, 6001);
    (6004, 6015); (6110, 6111); (6122, 6127); (6138, 6143); (6158, 6158);
    (6170, 6175); (6265, 6271); (6315, 6319); (6390, 6399); (6431, 6431);
    (6444, 6447); (6460, 6463); (6465, 6467); (6510, 6511); (6517, 6527);
    (6572, 6575); (6602, 6607); (6619, 6621); (6684, 6685); (6751, 6751);
    (6781, 6782); (6794, 6799); (6810, 6815); (6830, 6831); (6863, 6911);
    (6989, 6991); (7039, 7039); (7156, 7163); (7224, 7226); (7242, 7244);
    (7305, 7311); (7355, 7356); (7368, 7375); (7419, 7423); (7958, 7959);
    (7966, 7967); (8006, 8007); (8014, 8015); (8024, 8024); (8026, 8026);
    (8028, 8028); (8030, 8030); (8062, 8063); (8117, 8117); (8133, 8133);
    (8148, 8149); (8156, 8156); (8176, 8177); (8181, 8181); (8191, 8207);
    (8232, 8239); (8287, 8303); (8306, 8307); (8335, 8335); (8349, 8351);
    (8385, 8399); (8433, 8447); (8588, 8591); (9255, 9279); (9291, 9311);
    (11124, 11125); (11158, 11158); (11508, 11512); (11558, 11558);
    (11560, 11564); (11566, 11567); (11624, 11630); (11633, 11646);
    (11671, 11679); (11687, 11687); (11695, 11695); (11703, 11703);
    (11711, 11711); (11719, 11719); (11727, 11727); (11735, 11735);
    (11743, 11743); (11870, 11903); (11930, 11930); (12020, 12031);
    (12246, 12271); (12284, 12288); (12352, 12352); (12439, 12440);
    (12544, 12548); (12592, 12592); (12687, 12687); (12772, 12783);
    (12831, 12831); (42125, 42127); (42183, 42191); (42540, 42559);
    (42744, 42751); (42955, 42959); (42962, 42962); (42964, 42964);
    (42970, 42993); (43053, 43055); (43066, 43071); (43128, 43135);
    (43206, 43213); (43226, 43231); (43348, 43358); (43389, 43391);
    (43470, 43470); (43482, 43485); (43519, 43519); (43575, 43583);
    (43598, 43599); (43610, 43611); (43715, 43738); (43767, 43776);
    (43783, 43784); (43791, 43792); (43799, 43807); (43815, 43815);
    (43823, 43823); (43884, 43887); (44014, 44015); (44026, 44031);
    (55204, 55215); (55239, 55242); (55292, 63743); (64110, 64111);
    (64218, 64255); (64263, 64274); (64280, 64284); (64311, 64311);
    (64317, 64317); (64319, 64319); (64322, 64322); (64325, 64325);
    (64451, 64466); (64912, 64913); (64968, 64974); (64976, 65007);
    (65050, 65055); (65107, 65107); (65127, 65127); (65132, 65135);
    (65141, 65141); (65277, 65280); (65471, 65473); (65480, 65481);
    (65488, 65489); (65496, 65497); (65501, 65503); (65511, 65511);
    (65519, 65531); (65534, 65535); (65548, 65548); (65575, 65575);
    (65595, 65595); (65598, 65598); (65614, 65615); (65630, 65663);
    (65787, 65791); (65795, 65798); (65844, 65846); (65935, 65935);
    (65949, 65951); (65953, 65999); (66046, 66175); (66205, 66207);
    (66257, 66271); (66300, 66303); (66340, 66348); (66379, 66383);
    (66427, 66431); (66462, 66462); (66500, 66503); (66518, 66559);
    (66718, 66719); (66730, 66735); (66772, 66775); (66812, 66815);
    (66856, 66863); (66916, 66926); (66939, 66939); (66955, 66955);
    (66963, 66963); (66966, 66966); (66978, 66978); (66994, 66994);
    (67002, 67002); (67005, 67071); (67383, 67391); (67414, 67423);
    (67432, 67455); (67462, 67462); (67505, 67505); (67515, 67583);
    (67590, 67591); (67593, 67593); (67638, 67638); (67641, 67643);
    (67645, 67646); (67670, 67670); (67743, 67750); (67760, 67807);
    (67827, 67827); (67830, 67834); (67868, 67870); (67898, 67902);
    (67904, 67967); (68024, 68027); (68048, 68049); (68100, 68100);
    (68103, 68107); (68116, 68116); (68120, 68120); (68150, 68151);
    (68155, 68158); (68169, 68175); (68185, 68191); (68256, 68287);
    (68327, 68330); (68343, 68351); (68406, 68408); (68438, 68439);
    (68467, 68471); (68498, 68504); (68509, 68520); (68528, 68607);
    (68681, 68735); (68787, 68799); (68851, 68857); (68904, 68911);
    (68922, 69215); (69247, 69247); (69290, 69290); (69294, 69295);
    (69298, 69375); (69416, 69423); (69466, 69487); (69514, 69551);
    (69580, 69599); (69623, 69631); (69710, 69713); (69750, 69758);
    (69821, 69821); (69827, 69839); (69865, 69871); (69882, 69887);
    (69941, 69941); (69960, 69967); (70007, 70015); (70112, 70112);
    (70133, 70143); (70162, 70162); (70207, 70271); (70279, 70279);
    (70281, 70281); (70286, 70286); (70302, 70302); (70314, 70319);
    (70379, 70383); (70394, 70399); (70404, 70404); (70413, 70414);
    (70417, 70418); (70441, 70441); (70449, 70449); (70452, 70452);
    (70458, 70458); (70469, 70470); (70473, 70474); (70478, 70479);
    (70481, 70486); (70488, 70492); (70500, 70501); (70509, 70511);
    (70517, 70655); (70748, 70748); (70754, 70783); (70856, 70863);
    (70874, 71039); (71094, 71095); (71134, 71167); (71237, 71247);
    (71258, 71263); (71277, 71295); (71354, 71359); (71370, 71423);
    (71451, 71452); (71468, 71471); (71495, 71679); (71740, 71839);
    (71923, 71934); (71943, 71944); (71946, 71947); (71956, 71956);
    (71959, 71959); (71990, 71990); (71993, 71994); (72007, 72015);
    (72026, 72095); (72104, 72105); (72152, 72153); (72165, 72191);
    (72264, 72271); (72355, 72367); (72441, 72703); (72713, 72713);
    (72759, 72759); (72774, 72783); (72813, 72815); (72848, 72849);
    (72872, 72872); (72887, 72959); (72967, 72967); (72970, 72970);
    (73015, 73017); (73019, 73019); (73022, 73022); (73032, 73039);
    (73050, 73055); (73062, 73062); (73065, 73065); (73103, 73103);
    (73106, 73106); (73113, 73119); (73130, 73439); (73465, 73647);
    (73649, 73663); (73714, 73726); (74650, 74751); (74863, 74863);
    (74869, 74879); (75076, 77711); (77811, 77823); (78895, 82943);
    (83527, 92159); (92729, 92735); (92767, 92767); (92778, 92781);
    (92863, 92863); (92874, 92879); (92910, 92911); (92918, 92927);
    (92998, 93007); (93018, 93018); (93026, 93026); (93048, 93052);
    (93072, 93759); (93851, 93951); (94027, 94030); (94088, 94094);
    (94112, 94175); (94181, 94191); (94194, 94207); (100344, 100351);
    (101590, 101631); (101641, 110575); (110580, 110580); (110588, 110588);
    (110591, 110591); (110883, 110927); (110931, 110947); (110952, 110959);
    (111356, 113663); (113771, 113775); (113789, 113791); (113801, 113807);
    (113818, 113819); (113824, 118527); (118574, 118575); (118599, 118607);
    (118724, 118783); (119030, 119039); (119079, 119080); (119155, 119162);
    (119275, 119295); (119366, 119519); (119540, 119551); (119639, 119647);
    (119673, 119807); (119893, 119893); (119965, 119965); (119968, 119969);
    (119971, 119972); (119975, 119976); (119981, 119981); (119994, 119994);
    (119996, 119996); (120004, 120004); (120070, 120070); (120075, 120076);
    (120085, 120085); (120093, 120093); (120122, 120122); (120127, 120127);
    (120133, 120133); (120135, 120137); (120145, 120145); (120486, 120487);
    (120780, 120781); (121484, 121498); (121504, 121504); (121520, 122623);
    (122655, 122879); (122887, 122887); (122905, 122906); (122914, 122914);
    (122917, 122917); (122923, 123135); (123181, 123183); (123198, 123199);
    (123210, 123213); (123216, 123535); (123567, 123583); (123642, 123646);
    (123648, 124895); (124903, 124903); (124908, 124908); (124911, 124911);
    (124927, 124927); (125125, 125126); (125143, 125183); (125260, 125263);
    (125274, 125277); (125280, 126064); (126133, 126208); (126270, 126463);
    (126468, 126468); (126496, 126496); (126499, 126499); (126501, 126502);
    (126504, 126504); (126515, 126515); (126520, 126520); (126522, 126522);
    (126524, 126529); (126531, 126534); (126536, 126536); (126538, 126538);
    (126540, 126540); (126544, 126544); (126547, 126547); (126549, 126550);
    (126552, 126552); (126554, 126554); (126556, 126556); (126558, 126558);
    (126560, 126560); (126563, 126563); (126565, 126566); (126571, 126571);
    (126579, 126579); (126584, 126584); (126589, 126589); (126591, 126591);
    (126602, 126602); (126620, 126624); (126628, 126628); (126634, 126634);
    (126652, 126703); (126706, 126975); (127020, 127023); (127124, 127135);
    (127151, 127152); (127168, 127168); (127184, 127184); (127222, 127231);
    (127406, 127461); (127491, 127503); (127548, 127551); (127561, 127567);
    (127570, 127583); (127590, 127743); (128728, 128732); (128749, 128751);
    (128765, 128767); (128884, 128895); (128985, 128991); (129004, 129007);
    (129009, 129023); (129036, 129039); (129096, 129103); (129114, 129119);
    (129160, 129167); (129198, 129199); (129202, 129279); (129620, 129631);
    (129646, 129647); (129653, 129655); (129661, 129663); (129671, 129679);
    (129709, 129711); (129723, 129727); (129734, 129743); (129754, 129759);
    (129768, 129775); (129783, 129791); (129939, 129939); (129995, 130031);
    (130042, 131071); (173792, 173823); (177977, 177983); (178206, 178207);
    (183970, 183983); (191457, 194559); (195102, 196607); (201547, 917759);
    (918000, 1114111) ].

Definition isprintable (c : Z) : bool :=
  negb (existsb (fun '(lo, hi) => (lo <=? c) && (c <=? hi)) NONPRINTABLE).

Definition hexdigit (n : Z) : Z := if n <? 10 then 48 + n else 87 + n.
(** [n] in hexadecimal, on [width] digits. *)
Fixpoint hex (width : nat) (n : Z) : str :=
  match width with
  | O => []
  | S w => hex w (n / 16) ++ [hexdigit (n mod 16)]
  end.

Definition repr_char (quote c : Z) : str :=
  if (c =? quote) || (c =? 92) then [92; c]
  else if c =? 9 then [92; 116]
  else if c =? 10 then [92; 110]
  else if c =? 13 then [92; 114]
  else if isprintable c then [c]
  else if c <=? 255 then 92 :: 120 :: hex 2 c
  else if c <=? 65535 then 92 :: 117 :: hex 4 c
  else 92 :: 85 :: hex 8 c.

(** [repr(s)]: between single quotes, or between double quotes when [s]
    holds a single quote and no double quote; the quote, the backslash and
    what is not printable are escaped. *)
Definition repr (s : str) : str :=
  let quote :=
    if existsb (Z.eqb 39) s && negb (existsb (Z.eqb 34) s) then 34 else 39 in
  quote :: flat_map (repr_char quote) s ++ [quote].

(** The value of [int(s)], when it has one. *)
Definition int_of_str (s : str) : option Z :=
  match int_parse s with
  | IntValue n => Some n
  | InvalidLiteral | TooManyDigits _ => None
  end.

(** *** Decoding bytes *)

(** [bytes.decode('latin-1')]: every byte is its own code point. *)
Definition decode_latin1 (b : bytes) : str := map byte_val b.

Definition iscont (b : Z) : bool := (128 <=? b) && (b <=? 191).
Definition between (lo b hi : Z) : bool := (lo <=? b) && (b <=? hi).

(** Strict UTF-8 on a list of byte values: no overlong form, no surrogate,
    nothing above U+10FFFF, no truncated sequence. *)
Fixpoint utf8_from (bs : list Z) : option str :=
  match bs with
  | [] => Some []
  | b0 :: r0 =>
      if b0 <? 128 then option_map (cons b0) (utf8_from r0)
      else if between 194 b0 223 then
        match r0 with
        | b1 :: r1 =>
            if iscont b1
            then option_map (cons ((b0 - 192) * 64 + (b1 - 128)))
                            (utf8_from r1)
            else None
        | _ => None
        end
      else if between 224 b0 239 then
        match r0 with
        | b1 :: b2 :: r2 =>
            if between (if b0 =? 224 then 160 else 128) b1
                       (if b0 =? 237 then 159 else 191) && iscont b2
            then option_map
                   (cons ((b0 - 224) * 4096 + (b1 - 128) * 64 + (b2 - 128)))
                   (utf8_from r2)
            else None
        | _ => None
        end
      else if between 240 b0 244 then
        match r0 with
        | b1 :: b2 :: b3 :: r3 =>
            if between (if b0 =? 240 then 144 else 128) b1
                       (if b0 =? 244 then 143 else 191)
               && iscont b2 && iscont b3
            then option_map
                   (cons ((b0 - 240) * 262144 + (b1 - 128) * 4096
                          + (b2 - 128) * 64 + (b3 - 128)))
                   (utf8_from r3)
            else None
        | _ => None
        end
      else None
  end.

(** [bytes.decode('utf-8')]; [None] stands for [UnicodeDecodeError]. *)
Definition decode_utf8 (b : bytes) : option str := utf8_from (map byte_val b).

(** [bytes] literal of an ASCII string. *)
Definition blit (s : string) : bytes := list_byte_of_string s.
Arguments blit s%_string.

End Py.
Import Py.

(** ** Exceptions *)

(** The exception classes the module distinguishes in its [except]
    clauses, each with the text [str(e)] gives (for [HTTPException], its
    [detail]). [Timeout] is [requests.Timeout] with its subclasses,
    [RequestException] every other exception of the requests library, and
    [OtherError] any other subclass of [Exception]. *)
Inductive exn :=
| HTTPException (status_code : Z) (detail : str)
| Timeout (msg : str)
| RequestException (msg : str)
| ValueError (msg : str)
| UnicodeDecodeError (msg : str)
| TypeError (msg : str)
| KeyError (msg : str)
| ValidationError (msg : str)
| OtherError (msg : str).

(** [str(e)]. *)
Definition str_of_exn (e : exn) : str :=
  match e with
  | HTTPException c d => str_of_nat (Z.to_nat c) ++ lit ": " ++ d
  | Timeout m | RequestException m | ValueError m | UnicodeDecodeError m
  | TypeError m | KeyError m | ValidationError m | OtherError m => m
  end.

Inductive result (A : Type) :=
| Ok (a : A)
| Raise (e : exn).
Arguments Ok {A} a.
Arguments Raise {A} e.

(** [int(s)]: the number [s] writes, or the [ValueError] of a string that
    is no number ([%.200R] cuts its [repr] at 200 characters) or has too
    many digits. *)
Definition int (s : str) : result Z :=
  match int_parse s with
  | IntValue n => Ok n
  | InvalidLiteral =>
      Raise (ValueError (lit "invalid literal for int() with base 10: "
                         ++ firstn 200 (repr s)))
  | TooManyDigits digits =>
      Raise (ValueError
               (lit "Exceeds the limit (4300 digits) for integer string "
                ++ lit "conversion: value has " ++ str_of_nat digits
                ++ lit " digits; use sys.set_int_max_str_digits() to "
                ++ lit "increase the limit"))
  end.

(** ** IP addresses and networks (module [ipaddress]) *)

Inductive ip_address :=
| IPv4Address (ip : Z)
| IPv6Address (ip : Z).

Definition ip_version (a : ip_address) : Z :=
  match a with IPv4Address _ => 4 | IPv6Address _ => 6 end.
Definition ip_int (a : ip_address) : Z :=
  match a with IPv4Address n | IPv6Address n => n end.

Record ip_network := IPNetwork {
  net_version : Z;
  network_address : Z;
  prefixlen : Z
}.

Definition max_prefixlen (version : Z) : Z :=
  if version =? 4 then 32 else 128.
Definition all_ones (version : Z) : Z := 2 ^ max_prefixlen version - 1.

(** The mask of a network: [ALL_ONES ^ (ALL_ONES >> prefixlen)]. *)
Definition netmask (n : ip_network) : Z :=
  Z.lxor (all_ones (net_version n))
         (Z.shiftr (all_ones (net_version n)) (prefixlen n)).

(** [addr in network]: false when the versions differ, and otherwise
    [addr & netmask == network_address]. *)
Definition network_contains (n : ip_network) (a : ip_address) : bool :=
  if negb (net_version n =? ip_version a) then false
  else Z.land (ip_int a) (netmask n) =? network_address n.

(** The address [a.b.c.d]. *)
Definition ipv4 (a b c d : Z) : Z := a * 2 ^ 24 + b * 2 ^ 16 + c * 2 ^ 8 + d.

(** ** Constants *)

Definition MAX_FILE_SIZE : Z := 50 * 1024 * 1024.
Definition REQUEST_TIMEOUT : Z := 10.
Definition CHUNK_SIZE : Z := 8192.

Definition PRIVATE_IP_RANGES : list ip_network :=
  [ IPNetwork 4 (ipv4 127 0 0 0) 8;
    IPNetwork 4 (ipv4 10 0 0 0) 8;
    IPNetwork 4 (ipv4 172 16 0 0) 12;
    IPNetwork 4 (ipv4 192 168 0 0) 16;
    IPNetwork 4 (ipv4 169 254 0 0) 16;
    IPNetwork 6 1 128;
    IPNetwork 6 (65152 * 2 ^ 112) 10 ].

(** ** Data *)

Record URLRequest := { url : str }.

Record Chapter := {
  title : str;
  text : str;
  word_count : Z
}.

(** [Chapter(title, text)]: the word count is [len(text.split())]. *)
Definition Chapter_init (title text : str) : Chapter :=
  {| title := title; text := text; word_count := len (split_ws text) |}.

(** The dictionary the handler returns: the failure shape and the success
    shape. *)
Inductive ProcessingResult :=
| Failure (error message : str)
| Success (chapters : list Chapter) (total_words : Z)
          (source : str) (format : str).

(** The fields of [urlparse(url)] the validator reads. *)
Record ParseResult := {
  scheme : str;
  hostname : option str
}.

(** A response of [requests.get(..., stream=True)]. The keys of [headers]
    are lower-case (the headers of requests ignore case).
    [iter_content n] is what the iterator [response.iter_content(n)]
    yields, and the exception it raises after the last chunk, if any. *)
Record Response := {
  status_code : Z;
  reason : str;
  response_url : str;
  headers : gmap str str;
  iter_content : Z -> list bytes * option exn
}.

(** [response.raise_for_status()]: an [HTTPError], which is a
    [RequestException], for the statuses 400 to 599. *)
Definition raise_for_status (r : Response) : result unit :=
  if (400 <=? status_code r) && (status_code r <? 500) then
    Raise (RequestException
             (str_of_nat (Z.to_nat (status_code r)) ++ lit " Client Error: "
              ++ reason r ++ lit " for url: " ++ response_url r))
  else if (500 <=? status_code r) && (status_code r <? 600) then
    Raise (RequestException
             (str_of_nat (Z.to_nat (status_code r)) ++ lit " Server Error: "
              ++ reason r ++ lit " for url: " ++ response_url r))
  else Ok tt.

(** A parsed JSON body. *)
Inductive json :=
| JNull
| JBool (b : bool)
| JInt (n : Z)
| JFloat
| JString (s : str)
| JArray (l : list json)
| JObject (m : gmap str json).

(** The request: its headers (lower-case keys) and what
    [await request.json()] gives. *)
Record Request := {
  req_headers : gmap str str;
  req_json : result json
}.

(** An uploaded file: [file.filename], [file.content_type] and what
    [await file.read()] gives. *)
Record UploadFile := {
  filename : str;
  content_type : option str;
  file_read : bytes
}.

(** An item of an EPUB book: [get_type()], [get_name()], [get_content()]. *)
Record EpubItem := {
  item_type : Z;
  item_name : option str;
  item_content : bytes
}.

Definition ITEM_DOCUMENT : Z := 9.

(** ** Collaborators *)

Record Env := {
  (** [urllib.parse.urlparse] *)
  urlparse : str -> result ParseResult;
  (** the addresses the resolver finds for a host name, in its order *)
  dns : str -> result (list ip_address);
  (** [requests.get(url, timeout=REQUEST_TIMEOUT, stream=True)] *)
  requests_get : str -> result Response;
  (** [epub.read_epub] on a file of the given contents, then
      [book.get_items()] *)
  read_epub : bytes -> result (list EpubItem);
  (** [BeautifulSoup(html, 'html.parser')], the [script] and [style]
      elements removed, then [soup.get_text()] *)
  soup_get_text : str -> str;
  (** the name [tempfile.NamedTemporaryFile(suffix='.epub')] gives the new
      file *)
  mktemp : gmap str bytes -> str;
  (** the text of the [UnicodeDecodeError] of [bytes.decode('utf-8')] *)
  decode_error_msg : bytes -> str
}.

(** ** Control flow *)

(** A block that may fall through with a value, leave the handler with a
    [return], or raise. *)
Inductive flow (A : Type) :=
| Next (a : A)
| Return (r : ProcessingResult)
| Throw (e : exn).
Arguments Next {A} a.
Arguments Return {A} r.
Arguments Throw {A} e.

(** Computations on the file system that may raise. *)
Definition FS (A : Type) : Type := gmap str bytes -> result A * gmap str bytes.

Definition ret {A} (a : A) : FS A := fun fs => (Ok a, fs).
Definition raise {A} (e : exn) : FS A := fun fs => (Raise e, fs).
Definition lift {A} (r : result A) : FS A := fun fs => (r, fs).
Definition bind {A B} (c : FS A) (k : A -> FS B) : FS B :=
  fun fs =>
    match c fs with
    | (Ok a, fs') => k a fs'
    | (Raise e, fs') => (Raise e, fs')
    end.
(** [try: c except Exception as e: h e]. *)
Definition try_except {A} (c : FS A) (h : exn -> FS A) : FS A :=
  fun fs =>
    match c fs with
    | (Ok a, fs') => (Ok a, fs')
    | (Raise e, fs') => h e fs'
    end.

Notation "'let*' x ':=' c 'in' k" := (bind c (fun x => k))
  (at level 10, x name, c at level 100, k at level 200).

(** [with NamedTemporaryFile(delete=False, suffix='.epub') as tmp:
    tmp.write(content); tmp_path = tmp.name]. *)
Definition write_temp (name : gmap str bytes -> str) (content : bytes)
  : FS str :=
  fun fs => (Ok (name fs), <[name fs := content]> fs).

(** A reader that needs a path, run on the file at that path. *)
Definition read_path {A} (reader : bytes -> result A) (path : str) : FS A :=
  fun fs =>
    match fs !! path with
    | Some data => (reader data, fs)
    | None => (Raise (OtherError (lit "No such file or directory")), fs)
    end.

(** [try: os.unlink(path) except Exception: pass]. *)
Definition unlink_quietly (path : str) : FS unit :=
  fun fs => (Ok tt, delete path fs).

Section Backend.

Context (env : Env).

(** *** [socket.gethostbyname]: the first IPv4 address of the host, an
    error when the lookup fails or finds none. The address is given as the
    object [ipaddress.ip_address] builds from the dotted text. *)
Definition gethostbyname (host : str) : result ip_address :=
  match dns env host with
  | Raise e => Raise e
  | Ok addrs =>
      match List.filter (fun a => ip_version a =? 4) addrs with
      | a :: _ => Ok a
      | [] => Raise (OtherError (lit "Name or service not known"))
      end
  end.

Definition is_private_ip (hostname : str) : bool :=
  if str_in (lower hostname) [lit "localhost"; lit "0.0.0.0"] then true
  else
    match gethostbyname hostname with
    | Raise _ => true
    | Ok ip_obj =>
        existsb (fun private_range => network_contains private_range ip_obj)
                PRIVATE_IP_RANGES
    end.

Definition validate_url (url : str) : bool * str :=
  match urlparse env url with
  | Raise e => (false, str_of_exn e)
  | Ok parsed =>
      if negb (str_in (scheme parsed) [lit "http"; lit "https"]) then
        (false, lit "Only HTTP and HTTPS protocols are allowed")
      else
        match hostname parsed with
        | None | Some [] => (false, lit "Invalid URL")
        | Some host =>
            if is_private_ip host then
              (false,
               lit "Private IPs and localhost are not allowed for security reasons")
            else (true, [])
        end
  end.

Definition extract_text_from_html (html : str) : str :=
  let text := soup_get_text env html in
  let lines := map strip (splitlines text) in
  let chunks :=
    flat_map (fun line => map strip (split_2sp line)) lines in
  join (lit " ")
       (List.filter (fun chunk => negb (str_eqb chunk [])) chunks).

(** [bytes.decode('latin-1')] cannot fail, so the inner [except] clause of
    the source is never entered. *)
Definition parse_txt_file (content : bytes) : result (list Chapter) :=
  let text :=
    match decode_utf8 content with
    | Some text => text
    | None => decode_latin1 content
    end in
  let text := strip text in
  match text with
  | [] => Raise (HTTPException 400 (lit "File is empty"))
  | _ => Ok [Chapter_init (lit "Untitled") text]
  end.

(** The loop of [parse_epub_file] over [book.get_items()], from the
    chapters and the chapter number reached so far. *)
Fixpoint walk_items (items : list EpubItem) (chapters : list Chapter)
  (chapter_num : nat) : result (list Chapter) :=
  match items with
  | [] => Ok chapters
  | item :: rest =>
      if item_type item =? ITEM_DOCUMENT then
        match decode_utf8 (item_content item) with
        | None =>
            Raise (UnicodeDecodeError
                     (decode_error_msg env (item_content item)))
        | Some html_content =>
            let text := extract_text_from_html html_content in
            if len (strip text) <? 100 then
              walk_items rest chapters chapter_num
            else
              let title :=
                match item_name item with
                | None | Some [] => lit "Chapter " ++ str_of_nat chapter_num
                | Some name =>
                    if endswith name (lit ".html")
                       || endswith name (lit ".xhtml")
                    then lit "Chapter " ++ str_of_nat chapter_num
                    else name
                end in
              walk_items rest (chapters ++ [Chapter_init title text])
                         (S chapter_num)
        end
      else walk_items rest chapters chapter_num
  end.

Definition parse_epub_file (content : bytes) : FS (list Chapter) :=
  try_except
    (let* tmp_path := write_temp (mktemp env) content in
     let* items := read_path (read_epub env) tmp_path in
     let* chapters := lift (walk_items items [] 1) in
     let* _ := unlink_quietly tmp_path in
     match chapters with
     | [] =>
         raise (HTTPException 400
                  (lit "No readable content found in EPUB file"))
     | _ => ret chapters
     end)
    (fun e =>
       match e with
       | HTTPException _ _ => raise e
       | _ =>
           raise (HTTPException 400
                    (lit "Failed to parse EPUB file: " ++ str_of_exn e))
       end).

Definition detect_format (filename : str) (content_type : option str)
  : result str :=
  let filename_lower := lower filename in
  let unsupported :=
    Raise (HTTPException 400
             (lit "Unsupported file format. Supported: .txt, .epub")) in
  if endswith filename_lower (lit ".txt") then Ok (lit "txt")
  else if endswith filename_lower (lit ".epub") then Ok (lit "epub")
  else
    match content_type with
    | None | Some [] => unsupported
    | Some ct =>
        if contains (lit "text/plain") ct then Ok (lit "txt")
        else if contains (lit "epub") ct then Ok (lit "epub")
        else unsupported
    end.

(** *** The request body in URL mode *)

(** [key in body]. *)
Definition json_contains (key : str) (body : json) : result bool :=
  match body with
  | JObject m => Ok (bool_decide (is_Some (m !! key)))
  | JArray l =>
      Ok (existsb (fun v => match v with
                            | JString s => str_eqb s key
                            | _ => false
                            end) l)
  | JString s => Ok (contains key s)
  | _ => Raise (TypeError (lit "argument is not iterable"))
  end.

(** [body[key]], the key being a string. *)
Definition json_getitem (key : str) (body : json) : result json :=
  match body with
  | JObject m =>
      match m !! key with
      | Some v => Ok v
      | None => Raise (KeyError key)
      end
  | _ => Raise (TypeError (lit "indices must be integers"))
  end.

(** [URLRequest(url=v)]: the field is declared [str]; the model accepts a
    JSON string and nothing else. *)
Definition URLRequest_init (v : json) : result URLRequest :=
  match v with
  | JString s => Ok {| url := s |}
  | _ => Raise (ValidationError (lit "Input should be a valid string"))
  end.

Definition rbind {A B} (r : result A) (k : A -> result B) : result B :=
  match r with
  | Ok a => k a
  | Raise e => Raise e
  end.

Notation "'let+' x ':=' c 'in' k" := (rbind c (fun x => k))
  (at level 10, x name, c at level 100, k at level 200).

(** The first block of [process_file]: [url_request], which stays [None]
    when the body is not JSON, has no ["url"], or anything raises. *)
Definition read_url_request (request : Request) : option URLRequest :=
  let content_type := default [] (req_headers request !! lit "content-type") in
  if contains (lit "application/json") content_type then
    match
      (let+ body := req_json request in
       let+ present := json_contains (lit "url") body in
       if present : bool then
         let+ v := json_getitem (lit "url") body in
         let+ r := URLRequest_init v in
         Ok (Some r)
       else Ok None)
    with
    | Ok url_request => url_request
    | Raise _ => None
    end
  else None.

(** *** Fetching *)

Definition too_large : ProcessingResult :=
  Failure (lit "File too large") (lit "File exceeds 50MB limit").

(** [content_length and int(content_length) > MAX_FILE_SIZE]. *)
Definition declared_too_large (content_length : option str) : result bool :=
  match content_length with
  | None | Some [] => Ok false
  | Some s =>
      match int s with
      | Ok n => Ok (n >? MAX_FILE_SIZE)
      | Raise e => Raise e
      end
  end.

(** The loop over [response.iter_content(chunk_size=8192)], from the bytes
    accumulated so far. The first component of the result is [content] as
    the loop leaves it: all that was read from the body. *)
Fixpoint read_chunks (chunks : list bytes) (err : option exn)
  (content : bytes) : bytes * flow bytes :=
  match chunks with
  | [] =>
      match err with
      | Some e => (content, Throw e)
      | None => (content, Next content)
      end
  | chunk :: rest =>
      let content := content ++ chunk in
      if len content >? MAX_FILE_SIZE then (content, Return too_large)
      else read_chunks rest err content
  end.

(** [url.split('/')[-1].split('?')[0]]. *)
Definition filename_of_url (url : str) : str :=
  first_of (split_on 63 (last_of (split_on 47 url))).

(** The body of the [try] of URL mode. It gives the bytes read from the
    response body, and the content with its format, unless it returns or
    raises. *)
Definition fetch (url : str) : bytes * flow (bytes * str) :=
  match requests_get env url with
  | Raise e => ([], Throw e)
  | Ok response =>
      match raise_for_status response with
      | Raise e => ([], Throw e)
      | Ok _ =>
          let content_length := headers response !! lit "content-length" in
          match declared_too_large content_length with
          | Raise e => ([], Throw e)
          | Ok true => ([], Return too_large)
          | Ok false =>
              let '(chunks, err) := iter_content response CHUNK_SIZE in
              match read_chunks chunks err [] with
              | (read, Next content) =>
                  let filename := filename_of_url url in
                  let content_type := headers response !! lit "content-type" in
                  match detect_format filename content_type with
                  | Ok file_format => (read, Next (content, file_format))
                  | Raise e => (read, Throw e)
                  end
              | (read, Return r) => (read, Return r)
              | (read, Throw e) => (read, Throw e)
              end
          end
      end
  end.

(** The [except] clauses of URL mode: [requests.Timeout],
    [requests.RequestException], [HTTPException]; anything else
    propagates. *)
Definition fetch_except {A} (e : exn) : flow A :=
  match e with
  | Timeout _ =>
      Return (Failure (lit "Timeout")
                      (lit "Request timed out. Please try again."))
  | RequestException _ =>
      Return (Failure (lit "Fetch failed")
                      (lit "Failed to fetch URL: " ++ str_of_exn e))
  | HTTPException _ detail => Return (Failure (lit "Invalid format") detail)
  | _ => Throw e
  end.

Definition url_mode (url_request : URLRequest) : flow (bytes * str * str) :=
  let url := strip (url url_request) in
  let '(is_valid, error_msg) := validate_url url in
  if negb is_valid then Return (Failure (lit "Invalid URL") error_msg)
  else
    match snd (fetch url) with
    | Next (content, file_format) => Next (content, file_format, url)
    | Return r => Return r
    | Throw e => fetch_except e
    end.

Definition upload_mode (file : UploadFile) : flow (bytes * str * str) :=
  let content := file_read file in
  if len content >? MAX_FILE_SIZE then Return too_large
  else
    match detect_format (filename file) (content_type file) with
    | Ok file_format => Next (content, file_format, filename file)
    | Raise (HTTPException _ detail) =>
        Return (Failure (lit "Invalid format") detail)
    | Raise e => Throw e
    end.

(** *** Parsing and the response *)

Definition build_response (chapters : list Chapter) (source file_format : str)
  : ProcessingResult :=
  let total_words := fold_right Z.add 0 (map word_count chapters) in
  Success chapters total_words source file_format.

Definition process_content (content : bytes) (file_format source : str)
  : FS ProcessingResult :=
  try_except
    (if str_eqb file_format (lit "txt") then
       let* chapters := lift (parse_txt_file content) in
       ret (build_response chapters source file_format)
     else if str_eqb file_format (lit "epub") then
       let* chapters := parse_epub_file content in
       ret (build_response chapters source file_format)
     else
       ret (Failure (lit "Unsupported format")
                    (lit "Format '" ++ file_format
                     ++ lit "' is not supported")))
    (fun e =>
       match e with
       | HTTPException _ detail => ret (Failure (lit "Parse error") detail)
       | _ =>
           ret (Failure (lit "Processing error")
                        (lit "Failed to process file: " ++ str_of_exn e))
       end).

(** [elif file: ... else: ...]. *)
Definition upload_or_missing (file : option UploadFile)
  : flow (bytes * str * str) :=
  match file with
  | Some file => upload_mode file
  | None =>
      Return (Failure (lit "Missing input")
                (lit "Please provide either a URL or a file upload"))
  end.

(** The handler. [Ok r] is the dictionary it returns, [Raise e] an
    exception that leaves it. *)
Definition process_file (request : Request) (file : option UploadFile)
  : FS ProcessingResult :=
  let input :=
    match read_url_request request with
    | Some url_request =>
        match url url_request with
        | _ :: _ => url_mode url_request
        | [] => upload_or_missing file
        end
    | None => upload_or_missing file
    end in
  match input with
  | Next (content, file_format, source) =>
      process_content content file_format source
  | Return r => ret r
  | Throw e => raise e
  end.

End Backend.

(** ** Notions of the specification *)

(** The number of white-space delimited tokens of a text: the positions
    where a character that is not white space starts the text or follows
    white space. [prev] tells that the previous character belongs to a
    token. *)
Fixpoint count_tokens_from (prev : bool) (s : str) : nat :=
  match s with
  | [] => 0%nat
  | c :: r =>
      if isspace c then count_tokens_from false r
      else if prev then count_tokens_from true r
      else S (count_tokens_from true r)
  end.
Definition count_tokens (s : str) : nat := count_tokens_from false s.

(** An IPv4 address lies in the range [base/p] when it has the first [p]
    bits of [base]. *)
Definition in_cidr4 (ip base p : Z) : Prop :=
  ip / 2 ^ (32 - p) = base / 2 ^ (32 - p).

(** The blocked ranges of IPv4 addresses. *)
Definition blocked4 (ip : Z) : Prop :=
  in_cidr4 ip (ipv4 127 0 0 0) 8 \/ in_cidr4 ip (ipv4 10 0 0 0) 8
  \/ in_cidr4 ip (ipv4 172 16 0 0) 12 \/ in_cidr4 ip (ipv4 192 168 0 0) 16
  \/ in_cidr4 ip (ipv4 169 254 0 0) 16.

(** An address of either family lies in a blocked range. *)
Definition blocked (a : ip_address) : Prop :=
  match a with
  | IPv4Address ip => blocked4 ip
  | IPv6Address ip => ip = 1 \/ ip / 2 ^ 118 = 1018
  end.

(** The normalized text of an EPUB item, when its content is UTF-8. *)
Definition item_text (env : Env) (item : EpubItem) : option str :=
  option_map (extract_text_from_html env) (decode_utf8 (item_content item)).

(** The filter rule: a document item is accepted when its normalized text,
    stripped, has at least 100 characters. *)
Definition accepted (env : Env) (item : EpubItem) : bool :=
  (item_type item =? ITEM_DOCUMENT)
  && match item_text env item with
     | Some text => 100 <=? len (strip text)
     | None => false
     end.

(** The title rule: the name of the item, unless it is absent or ends in
    [.html] or [.xhtml]; then ["Chapter n"]. *)
Definition needs_fallback_title (item : EpubItem) : bool :=
  match item_name item with
  | None => true
  | Some name =>
      str_eqb name [] || endswith name (lit ".html")
      || endswith name (lit ".xhtml")
  end.
Definition chapter_title (n : nat) (item : EpubItem) : str :=
  if needs_fallback_title item then lit "Chapter " ++ str_of_nat n
  else default [] (item_name item).

(** The chapters of a list of accepted items, numbered from [n] on. *)
Fixpoint number_chapters (env : Env) (n : nat) (items : list EpubItem)
  : list Chapter :=
  match items with
  | [] => []
  | item :: rest =>
      Chapter_init (chapter_title n item) (default [] (item_text env item))
      :: number_chapters env (S n) rest
  end.

(** The chapters of a book: its accepted items in package order, numbered
    from 1. *)
Definition book_chapters (env : Env) (items : list EpubItem) : list Chapter :=
  number_chapters env 1 (List.filter (accepted env) items).

(** Every document item of the book holds UTF-8. *)
Definition all_decodable (items : list EpubItem) : Prop :=
  Forall (fun item =>
            item_type item = ITEM_DOCUMENT ->
            is_Some (decode_utf8 (item_content item))) items.

(** The error of the EPUB parser for an exception raised while it opens or
    walks the archive: a [HTTPException] as it is, anything else wrapped
    with its message. *)
Definition epub_error (e : exn) : exn :=
  match e with
  | HTTPException _ _ => e
  | _ => HTTPException 400 (lit "Failed to parse EPUB file: " ++ str_of_exn e)
  end.

(** The text [parse_txt_file] works on: UTF-8 when the bytes are UTF-8,
    Latin-1 otherwise. *)
Definition decoded_text (content : bytes) : str :=
  match decode_utf8 content with
  | Some text => text
  | None => decode_latin1 content
  end.

(** The response declares a [Content-Length] above the ceiling. *)
Definition declares_too_large (response : Response) : Prop :=
  exists s n, headers response !! lit "content-length" = Some s
              /\ int_of_str s = Some n /\ MAX_FILE_SIZE < n.


(** The parts of a URL [scheme://authority/path?query#fragment]: the
    fragment starts at the first [#], the query at the first [?] before
    it, and the path at the first [/] after the [//] of the authority. *)
Fixpoint take_until (stop : Z -> bool) (s : str) : str :=
  match s with
  | [] => []
  | c :: r => if stop c then [] else c :: take_until stop r
  end.
Fixpoint drop_until (stop : Z -> bool) (s : str) : str :=
  match s with
  | [] => []
  | c :: r => if stop c then s else drop_until stop r
  end.
Fixpoint after_authority (s : str) : str :=
  match s with
  | [] => []
  | c :: r =>
      match r with
      | d :: r' =>
          if (c =? 47) && (d =? 47) then drop_until (Z.eqb 47) r'
          else after_authority r
      | [] => []
      end
  end.
Definition url_path (url : str) : str :=
  after_authority
    (take_until (fun c => (c =? 63) || (c =? 35)) url).
(** The final segment of the path: what follows its last [/]. *)
Definition final_path_segment (url : str) : str :=
  last_of (split_on 47 (url_path url)).
(** The query and the fragment of a URL: what starts at its first [?] or
    [#]. *)
Definition url_tail (url : str) : str :=
  drop_until (fun c => (c =? 63) || (c =? 35)) url.

(** ** A concrete environment

    One resolver table, a few responses, one book and an empty file system,
    on which the handler can be run. *)

Module Sample.

Definition isalpha (c : Z) : bool :=
  ((65 <=? c) && (c <=? 90)) || ((97 <=? c) && (c <=? 122)).
Definition is_scheme_char (c : Z) : bool :=
  isalpha c || isdigit c || (c =? 43) || (c =? 45) || (c =? 46).

(** What [urlparse] gives as scheme and host name for a URL
    [scheme://user@host:port/path?query#fragment] (each part after the
    host optional, as is [user@]) that has no bracket and no control
    character: the scheme is the text before the first colon if it is made
    of scheme characters, the authority runs from [//] to the first of
    [/ ? #], and the host is what follows its last [@], up to the first
    colon, in lower case. *)
Definition parse_url (url : str) : result ParseResult :=
  let head := take_until (Z.eqb 58) url in
  let has_scheme :=
    existsb (Z.eqb 58) url
    && match head with c :: _ => isalpha c | [] => false end
    && forallb is_scheme_char head in
  let rest := if has_scheme then skipn (S (length head)) url else url in
  let netloc :=
    if startswith rest (lit "//")
    then take_until (fun c => (c =? 47) || (c =? 63) || (c =? 35))
                    (skipn 2 rest)
    else [] in
  let host := lower (take_until (Z.eqb 58) (last_of (split_on 64 netloc))) in
  Ok {| scheme := if has_scheme then lower head else [];
        hostname := match host with [] => None | _ => Some host end |}.

Definition public_ip : ip_address := IPv4Address (ipv4 93 184 216 34).
Definition intranet_ip : ip_address := IPv4Address (ipv4 10 0 0 5).

(** The resolver: [example.com] has one public address, [mixed.example] a
    public address followed by a private one, [intranet.example] a private
    address, and no other name resolves. *)
Definition resolver (host : str) : result (list ip_address) :=
  if str_eqb host (lit "example.com") then Ok [public_ip]
  else if str_eqb host (lit "mixed.example") then Ok [public_ip; intranet_ip]
  else if str_eqb host (lit "intranet.example") then Ok [intranet_ip]
  else Raise (OtherError (lit "[Errno -2] Name or service not known")).

Definition ok_response (u : str) (h : gmap str str) (body : list bytes)
  : Response :=
  {| status_code := 200; reason := lit "OK"; response_url := u;
     headers := h; iter_content := fun _ => (body, None) |}.

(** The server: a text file whose [Content-Length] is not a number at
    [/notes], and the text ["hello world"] at every other address. *)
Definition server (u : str) : result Response :=
  if str_eqb u (lit "http://example.com/notes") then
    Ok (ok_response u
          (<[lit "content-length" := lit "abc"]>
             (<[lit "content-type" := lit "text/plain"]> ∅))
          [blit "hello world"])
  else
    Ok (ok_response u
          (<[lit "content-length" := lit "11"]>
             (<[lit "content-type" := lit "text/plain"]> ∅))
          [blit "hello world"]).

Definition short_text : string :=
  "Table of contents: one, two, three, four, five....".
Definition long_line : string :=
  "It was the best of times, it was the worst of times, it was an age.. ".
Definition long_text : string :=
  String.concat "" (repeat long_line 7) ++ "So ends the tale.".

Definition book : bytes := blit "PK-sample-book".
Definition toc_item : EpubItem :=
  {| item_type := ITEM_DOCUMENT; item_name := Some (lit "toc.xhtml");
     item_content := blit short_text |}.
Definition part1_item : EpubItem :=
  {| item_type := ITEM_DOCUMENT; item_name := Some (lit "part1.xhtml");
     item_content := blit long_text |}.
Definition book_items : list EpubItem := [toc_item; part1_item].

(** A second archive, whose second document is not UTF-8. *)
Definition broken_book : bytes := blit "PK-broken-book".
Definition broken_items : list EpubItem :=
  [ part1_item;
    {| item_type := ITEM_DOCUMENT; item_name := Some (lit "part2.xhtml");
       item_content := ["255"%byte; "254"%byte] |} ].

(** The archive reader: [book] holds [book_items], [broken_book] holds
    [broken_items], and nothing else is an archive. *)
Definition open_book (content : bytes) : result (list EpubItem) :=
  if str_eqb (map byte_val content) (map byte_val book) then Ok book_items
  else if str_eqb (map byte_val content) (map byte_val broken_book)
  then Ok broken_items
  else Raise (OtherError (lit "File is not a zip file")).

Definition tmp_path : str := lit "/tmp/tmpk3v9xq_a.epub".

(** Text without markup is its own text content. *)
Definition env : Env :=
  {| urlparse := parse_url;
     dns := resolver;
     requests_get := server;
     read_epub := open_book;
     soup_get_text := fun html => html;
     mktemp := fun _ => tmp_path;
     decode_error_msg :=
       fun _ => lit "'utf-8' codec can't decode bytes: invalid start byte" |}.

Definition json_request (body : json) : Request :=
  {| req_headers := <[lit "content-type" := lit "application/json"]> ∅;
     req_json := Ok body |}.

Definition url_request (u : str) : Request :=
  json_request (JObject (<[lit "url" := JString u]> ∅)).

End Sample.

(** ** Further notions *)

(** A text without two spaces in a row. *)
Fixpoint no_double_space (s : str) : bool :=
  match s with
  | [] => true
  | c :: r =>
      match r with
      | d :: _ => negb ((c =? 32) && (d =? 32))
      | [] => true
      end && no_double_space r
  end.

(** A text without line boundary. *)
Definition no_linebreak (s : str) : bool :=
  forallb (fun c => negb (islinebreak c)) s.

(** A text that neither starts nor ends with white space. *)
Definition clean_ends (s : str) : Prop :=
  match s with [] => True | c :: _ => isspace c = false end
  /\ match rev s with [] => True | c :: _ => isspace c = false end.

(** The [error] fields of the answers of the handler. *)
Definition ANSWER_ERRORS : list str :=
  [ lit "Invalid URL"; lit "File too large"; lit "Timeout";
    lit "Fetch failed"; lit "Invalid format"; lit "Missing input";
    lit "Parse error" ].

(** The request names no URL: [url_request] is [None], or its [url] is
    empty. *)
Definition no_url (request : Request) : Prop :=
  match read_url_request request with
  | Some url_request => url url_request = []
  | None => True
  end.

(** ** A second environment

    The sample environment with a server that also fails, and one more
    book. *)

Module Cases.

(** The server times out at [/slow], drops the connection at [/reset],
    answers 404 at [/gone.txt], and is the sample server elsewhere. *)
Definition server (u : str) : result Response :=
  if str_eqb u (lit "http://example.com/slow") then
    Raise (Timeout (lit "Read timed out. (read timeout=10)"))
  else if str_eqb u (lit "http://example.com/reset") then
    Raise (RequestException (lit "Connection aborted."))
  else if str_eqb u (lit "http://example.com/gone.txt") then
    Ok {| status_code := 404; reason := lit "Not Found"; response_url := u;
          headers := <[lit "content-type" := lit "text/plain"]> ∅;
          iter_content := fun _ => ([blit "no such page"], None) |}
  else Sample.server u.

(** A book of three documents: a short table of contents, a preface whose
    name is not a file name, and a first part. *)
Definition preface_item : EpubItem :=
  {| item_type := ITEM_DOCUMENT; item_name := Some (lit "Preface");
     item_content := blit Sample.long_text |}.
Definition anthology : bytes := blit "PK-anthology".
Definition anthology_items : list EpubItem :=
  [Sample.toc_item; preface_item; Sample.part1_item].

Definition open_book (content : bytes) : result (list EpubItem) :=
  if str_eqb (map byte_val content) (map byte_val anthology)
  then Ok anthology_items
  else Sample.open_book content.

Definition env : Env :=
  {| urlparse := Sample.parse_url;
     dns := Sample.resolver;
     requests_get := server;
     read_epub := open_book;
     soup_get_text := fun html => html;
     mktemp := fun _ => Sample.tmp_path;
     decode_error_msg := decode_error_msg Sample.env |}.

(** A request that is an upload: no JSON body. *)
Definition upload_request : Request :=
  {| req_headers :=
       <[lit "content-type" := lit "multipart/form-data; boundary=x"]> ∅;
     req_json := Raise (ValueError (lit "Expecting value")) |}.

End Cases.

(** ** A server of large files

    Three responses that pass the ceiling: one says so in its
    [Content-Length], one has no [Content-Length], and one understates it.
    The last two stream 6401 chunks of 8192 bytes, one chunk more than
    fills [MAX_FILE_SIZE]. *)

Module Bulk.

Definition chunk : bytes := repeat "000"%byte (Z.to_nat CHUNK_SIZE).
Definition stream : list bytes := repeat chunk (Z.to_nat 6401).

Definition declared_url : str := lit "http://example.com/declared.bin".
Definition stream_url : str := lit "http://example.com/stream.bin".
Definition understated_url : str := lit "http://example.com/understated.bin".

Definition declared_response : Response :=
  Sample.ok_response declared_url
    (<[lit "content-length" := lit "52428801"]> ∅) [blit "x"].
Definition stream_response : Response :=
  Sample.ok_response stream_url ∅ stream.
Definition understated_response : Response :=
  Sample.ok_response understated_url
    (<[lit "content-length" := lit "8192"]> ∅) stream.

Definition server (u : str) : result Response :=
  if str_eqb u declared_url then Ok declared_response
  else if str_eqb u stream_url then Ok stream_response
  else if str_eqb u understated_url then Ok understated_response
  else Sample.server u.

Definition env : Env :=
  {| urlparse := Sample.parse_url;
     dns := Sample.resolver;
     requests_get := server;
     read_epub := Sample.open_book;
     soup_get_text := fun html => html;
     mktemp := fun _ => Sample.tmp_path;
     decode_error_msg := decode_error_msg Sample.env |}.

End Bulk.

(** * Properties *)

(** ** Strings *)

Lemma str_eqb_eq (a b : str) : str_eqb a b = true <-> a = b.
Proof.
  revert b; induction a as [|x a IH]; intros [|y b]; simpl; try easy.
  rewrite andb_true_iff, Z.eqb_eq, IH. split.
  - intros [-> ->]; reflexivity.
  - intros [= -> ->]; auto.
Qed.

Lemma lstrip_nil_iff (s : str) : lstrip s = [] <-> forallb isspace s = true.
Proof.
  induction s as [|c r IH]; simpl; [easy|].
  destruct (isspace c); simpl; [exact IH|easy].
Qed.

(** What [lstrip] leaves is empty or starts with a character that is not
    white space. *)
Lemma lstrip_head (s : str) :
  match lstrip s with [] => True | c :: _ => isspace c = false end.
Proof.
  induction s as [|c r IH]; simpl; [exact I|].
  destruct (isspace c) eqn:E; [exact IH|exact E].
Qed.

Lemma forallb_rev {A} (f : A -> bool) (l : list A) :
  forallb f (rev l) = forallb f l.
Proof.
  induction l as [|x l IH]; simpl; [reflexivity|].
  rewrite forallb_app, IH; simpl. rewrite andb_true_r, andb_comm. reflexivity.
Qed.

Lemma rev_nil_iff {A} (l : list A) : rev l = [] <-> l = [].
Proof.
  split; [|intros ->; reflexivity].
  intros H. rewrite <- (rev_involutive l), H. reflexivity.
Qed.

(** [strip] leaves nothing exactly of the strings made of white space. *)
Lemma strip_nil_iff (s : str) : strip s = [] <-> forallb isspace s = true.
Proof.
  unfold strip, rstrip.
  rewrite rev_nil_iff, lstrip_nil_iff, forallb_rev.
  transitivity (lstrip s = []); [|apply lstrip_nil_iff].
  pose proof (lstrip_head s) as Hh. split.
  - intros H. destruct (lstrip s) as [|c r]; [reflexivity|].
    simpl in H. rewrite Hh in H. discriminate.
  - intros ->. reflexivity.
Qed.

Lemma split_ws_from_length (cur s : str) :
  length (split_ws_from cur s)
  = (count_tokens_from (match cur with [] => false | _ => true end) s
     + match cur with [] => 0 | _ => 1 end)%nat.
Proof.
  revert cur; induction s as [|c r IH]; intros cur; simpl.
  - destruct cur; reflexivity.
  - destruct (isspace c).
    + destruct cur; simpl; rewrite (IH []); simpl; lia.
    + rewrite (IH (c :: cur)). destruct cur; simpl; lia.
Qed.

(** [len(text.split())] counts the tokens of the text. *)
Lemma split_ws_length (s : str) : length (split_ws s) = count_tokens s.
Proof.
  unfold split_ws, count_tokens. rewrite split_ws_from_length. simpl. lia.
Qed.


(** ** Networks *)

Lemma testbit_above (a n : Z) : 0 <= a < 2 ^ 32 -> 32 <= n -> Z.testbit a n = false.
Proof.
  intros Ha Hn. destruct (Z.eq_dec a 0) as [->|Hne].
  - apply Z.bits_0.
  - apply Z.bits_above_log2; [lia|].
    assert (Z.log2 a < 32) by (apply Z.log2_lt_pow2; lia). lia.
Qed.

(** Masking with the [32 - k] leading bits clears the [k] trailing bits. *)
Lemma land_leading_bits (ip k : Z) :
  0 <= k <= 32 -> 0 <= ip < 2 ^ 32 ->
  Z.land ip (2 ^ 32 - 2 ^ k) = 2 ^ k * (ip / 2 ^ k).
Proof.
  intros Hk Hip.
  assert (Hm : 2 ^ 32 - 2 ^ k = Z.shiftl (Z.ones (32 - k)) k).
  { rewrite Z.ones_equiv, Z.shiftl_mul_pow2 by lia.
    replace 32 with ((32 - k) + k) at 1 by lia.
    rewrite Z.pow_add_r by lia. lia. }
  rewrite Hm, (Z.mul_comm (2 ^ k)).
  rewrite <- Z.shiftl_mul_pow2, <- Z.shiftr_div_pow2 by lia.
  apply Z.bits_inj'. intros n Hn.
  rewrite Z.land_spec, !Z.shiftl_spec by lia.
  destruct (Z.ltb_spec n k) as [Hlt|Hge].
  - rewrite !(Z.testbit_neg_r _ (n - k)) by lia. apply andb_false_r.
  - rewrite Z.shiftr_spec by lia. replace (n - k + k) with n by lia.
    rewrite Z.testbit_ones by lia.
    destruct (Z.ltb_spec (n - k) (32 - k)) as [Hin|Hout].
    + replace (0 <=? n - k) with true by (symmetry; apply Z.leb_le; lia).
      apply andb_true_r.
    + rewrite (testbit_above ip n) by lia. reflexivity.
Qed.

Lemma cidr4_bounds (ip base k : Z) :
  0 <= k -> ip / 2 ^ k = base -> 2 ^ k * base <= ip < 2 ^ k * (base + 1).
Proof.
  intros Hk <-. assert (0 < 2 ^ k) by (apply Z.pow_pos_nonneg; lia).
  pose proof (Z.div_mod ip (2 ^ k)). pose proof (Z.mod_pos_bound ip (2 ^ k)).
  lia.
Qed.

(** Membership in an IPv4 network of [PRIVATE_IP_RANGES], as the code tests
    it with the mask, is membership in the range. *)
Ltac range_case mask k :=
  match goal with
  | |- context [netmask ?n] => change (netmask n) with mask
  end;
  rewrite land_leading_bits by lia;
  match goal with
  | |- _ <-> _ = ?b / 2 ^ (32 - ?p) =>
      let q := eval vm_compute in (b / 2 ^ (32 - p)) in
      change (b / 2 ^ (32 - p)) with q; change (32 - p) with k;
      change b with (2 ^ k * q)
  end;
  assert (0 < 2 ^ k) by lia; split; intros; lia.

Lemma network_contains4_iff (base p ip : Z) :
  In (IPNetwork 4 base p) PRIVATE_IP_RANGES -> 0 <= ip < 2 ^ 32 ->
  network_contains (IPNetwork 4 base p) (IPv4Address ip) = true
  <-> in_cidr4 ip base p.
Proof.
  intros Hin Hip. unfold network_contains, in_cidr4.
  cbn [net_version ip_version ip_int network_address negb Z.eqb Pos.eqb].
  rewrite Z.eqb_eq.
  unfold PRIVATE_IP_RANGES, In in Hin.
  destruct Hin as [H|[H|[H|[H|[H|[H|[H|[]]]]]]]].
  - injection H as <- <-. range_case (2 ^ 32 - 2 ^ 24) 24.
  - injection H as <- <-. range_case (2 ^ 32 - 2 ^ 24) 24.
  - injection H as <- <-. range_case (2 ^ 32 - 2 ^ 20) 20.
  - injection H as <- <-. range_case (2 ^ 32 - 2 ^ 16) 16.
  - injection H as <- <-. range_case (2 ^ 32 - 2 ^ 16) 16.
  - exfalso; apply (f_equal net_version) in H; simpl in H; lia.
  - exfalso; apply (f_equal net_version) in H; simpl in H; lia.
Qed.

Lemma in_cidr4_range (ip base p : Z) :
  In (IPNetwork 4 base p) PRIVATE_IP_RANGES -> in_cidr4 ip base p ->
  0 <= ip < 2 ^ 32.
Proof.
  intros Hin Hc. unfold in_cidr4 in Hc.
  unfold PRIVATE_IP_RANGES, In in Hin.
  destruct Hin as [H|[H|[H|[H|[H|[H|[H|[]]]]]]]].
  1-5: injection H as <- <-; apply cidr4_bounds in Hc; [|lia];
       match type of Hc with
       | 2 ^ ?k * ?q <= _ < 2 ^ ?k * (?q + 1) =>
           let lo := eval vm_compute in (2 ^ k * q) in
           let hi := eval vm_compute in (2 ^ k * (q + 1)) in
           change (2 ^ k * q) with lo in Hc;
           change (2 ^ k * (q + 1)) with hi in Hc
       end;
       change (2 ^ 32) with 4294967296; lia.
  all: exfalso; apply (f_equal net_version) in H; simpl in H; lia.
Qed.

(** The networks of [PRIVATE_IP_RANGES] hold exactly the IPv4 addresses of
    the five blocked IPv4 ranges; the two IPv6 networks hold no IPv4
    address. *)
Lemma private_ranges_v4 (ip : Z) :
  blocked4 ip ->
  existsb (fun r => network_contains r (IPv4Address ip)) PRIVATE_IP_RANGES
  = true.
Proof.
  intros Hb. apply existsb_exists.
  assert (Hall : forall base p,
             In (IPNetwork 4 base p) PRIVATE_IP_RANGES -> in_cidr4 ip base p ->
             exists r, In r PRIVATE_IP_RANGES
                       /\ network_contains r (IPv4Address ip) = true).
  { intros base p Hin Hc. exists (IPNetwork 4 base p). split; [exact Hin|].
    apply network_contains4_iff; [exact Hin| |exact Hc].
    eapply in_cidr4_range; eassumption. }
  unfold blocked4 in Hb.
  destruct Hb as [H|[H|[H|[H|H]]]]; (eapply Hall; [|exact H]);
    unfold PRIVATE_IP_RANGES, In; tauto.
Qed.

Lemma private_ranges_v4_inv (ip : Z) :
  0 <= ip < 2 ^ 32 ->
  existsb (fun r => network_contains r (IPv4Address ip)) PRIVATE_IP_RANGES
  = true ->
  blocked4 ip.
Proof.
  intros Hip [r [Hin Hr]]%existsb_exists.
  assert (Hv : net_version r = 4).
  { unfold network_contains in Hr. simpl ip_version in Hr.
    destruct (net_version r =? 4) eqn:E; [apply Z.eqb_eq; exact E|discriminate]. }
  destruct r as [v base p]. simpl in Hv. subst v.
  apply network_contains4_iff in Hr; [|exact Hin|exact Hip].
  unfold PRIVATE_IP_RANGES, In in Hin. unfold blocked4.
  destruct Hin as [H|[H|[H|[H|[H|[H|[H|[]]]]]]]].
  1-5: injection H as <- <-; tauto.
  all: exfalso; apply (f_equal net_version) in H; simpl in H; lia.
Qed.

(** ** The URL validator *)

Lemma is_private_ip_literal (env : Env) (host : str) :
  lower host = lit "localhost" \/ lower host = lit "0.0.0.0" ->
  is_private_ip env host = true.
Proof.
  intros H. unfold is_private_ip, str_in.
  destruct H as [-> | ->]; reflexivity.
Qed.

Lemma is_private_ip_error (env : Env) (host : str) (e : exn) :
  gethostbyname env host = Raise e -> is_private_ip env host = true.
Proof.
  intros H. unfold is_private_ip. rewrite H.
  destruct (str_in _ _); reflexivity.
Qed.

Lemma is_private_ip_blocked (env : Env) (host : str) (ip : Z) :
  gethostbyname env host = Ok (IPv4Address ip) -> blocked4 ip ->
  is_private_ip env host = true.
Proof.
  intros H Hb. unfold is_private_ip. rewrite H.
  destruct (str_in _ _); [reflexivity|]. apply private_ranges_v4, Hb.
Qed.

(** A lookup error of the resolver is an error of [gethostbyname]. *)
Lemma gethostbyname_dns_error (env : Env) (host : str) (e : exn) :
  dns env host = Raise e -> gethostbyname env host = Raise e.
Proof. intros H. unfold gethostbyname. rewrite H. reflexivity. Qed.

Lemma validate_url_private (env : Env) (url : str) (parsed : ParseResult)
  (host : str) :
  urlparse env url = Ok parsed -> hostname parsed = Some host ->
  is_private_ip env host = true ->
  fst (validate_url env url) = false.
Proof.
  intros Hp Hh Hpriv. unfold validate_url. rewrite Hp.
  destruct (negb _); [reflexivity|]. rewrite Hh.
  destruct host; [reflexivity|]. rewrite Hpriv. reflexivity.
Qed.

(** C1 (as amended): [validate_url] rejects a URL whenever its host name,
    in lower case, is [localhost] or [0.0.0.0], or the one address the
    lookup returns for it (the first IPv4 address of the host) lies in one
    of 127.0.0.0/8, 10.0.0.0/8, 172.16.0.0/12, 192.168.0.0/16 and
    169.254.0.0/16. *)
Theorem validate_url_blocks (env : Env) (url : str) (parsed : ParseResult)
  (host : str) :
  urlparse env url = Ok parsed -> hostname parsed = Some host ->
  (lower host = lit "localhost" \/ lower host = lit "0.0.0.0"
   \/ exists ip, gethostbyname env host = Ok (IPv4Address ip) /\ blocked4 ip) ->
  fst (validate_url env url) = false.
Proof.
  intros Hp Hh H. eapply validate_url_private; [exact Hp|exact Hh|].
  destruct H as [H|[H|[ip [Hg Hb]]]].
  - apply is_private_ip_literal; auto.
  - apply is_private_ip_literal; auto.
  - eapply is_private_ip_blocked; eassumption.
Qed.

Lemma validate_url_blocks_witness :
  urlparse Sample.env (lit "http://Intranet.Example/book.txt")
  = Ok {| scheme := lit "http"; hostname := Some (lit "intranet.example") |}
  /\ gethostbyname Sample.env (lit "intranet.example")
     = Ok (IPv4Address (ipv4 10 0 0 5))
  /\ fst (validate_url Sample.env (lit "http://Intranet.Example/book.txt"))
     = false.
Proof.
  split; [reflexivity|]. split; [reflexivity|].
  apply (validate_url_blocks Sample.env _
           {| scheme := lit "http"; hostname := Some (lit "intranet.example") |}
           (lit "intranet.example")); [reflexivity|reflexivity|].
  right; right. exists (ipv4 10 0 0 5). split; [reflexivity|].
  right; left. reflexivity.
Defined.

(** C1 (as stated) fails: [mixed.example] resolves to a public address
    followed by 10.0.0.5, which lies in 10.0.0.0/8, and the URL is allowed:
    only the first address is examined. *)
Lemma validate_url_second_address_unchecked :
  urlparse Sample.env (lit "http://mixed.example/book.txt")
  = Ok {| scheme := lit "http"; hostname := Some (lit "mixed.example") |}
  /\ dns Sample.env (lit "mixed.example")
     = Ok [Sample.public_ip; IPv4Address (ipv4 10 0 0 5)]
  /\ blocked (IPv4Address (ipv4 10 0 0 5))
  /\ validate_url Sample.env (lit "http://mixed.example/book.txt")
     = (true, []).
Proof.
  split; [reflexivity|]. split; [reflexivity|]. split; [|reflexivity].
  right; left. reflexivity.
Qed.

(** C4: the validator fails closed. When the lookup of a host name raises
    (the resolver fails, or finds no IPv4 address), [is_private_ip] answers
    [True] for it, and [validate_url] allows no URL with that host name. *)
Theorem validate_url_fails_closed (env : Env) (host : str) (e : exn) :
  gethostbyname env host = Raise e ->
  is_private_ip env host = true
  /\ forall (url : str) (parsed : ParseResult),
       urlparse env url = Ok parsed -> hostname parsed = Some host ->
       fst (validate_url env url) = false.
Proof.
  intros Hg.
  assert (Hp : is_private_ip env host = true)
    by (eapply is_private_ip_error; exact Hg).
  split; [exact Hp|].
  intros url parsed Hu Hh. eapply validate_url_private; eassumption.
Qed.

Lemma validate_url_fails_closed_witness :
  dns Sample.env (lit "nowhere.invalid")
  = Raise (OtherError (lit "[Errno -2] Name or service not known"))
  /\ is_private_ip Sample.env (lit "nowhere.invalid") = true
  /\ fst (validate_url Sample.env (lit "https://nowhere.invalid/a.txt")) = false.
Proof.
  split; [reflexivity|].
  destruct (validate_url_fails_closed Sample.env (lit "nowhere.invalid")
              (OtherError (lit "[Errno -2] Name or service not known"))
              eq_refl) as [Hp Hv].
  split; [exact Hp|].
  apply (Hv (lit "https://nowhere.invalid/a.txt")
            {| scheme := lit "https";
               hostname := Some (lit "nowhere.invalid") |});
    reflexivity.
Defined.

(** Whatever the URL, a parse error of [urlparse] is a rejection too. *)
Lemma validate_url_parse_error (env : Env) (url : str) (e : exn) :
  urlparse env url = Raise e -> validate_url env url = (false, str_of_exn e).
Proof. intros H. unfold validate_url. rewrite H. reflexivity. Qed.

(** ** The plain-text parser *)

(** C7: [parse_txt_file] on any bytes. When the decoded text is white space
    only (the empty text included) it raises [HTTPException(400, "File is
    empty")]; otherwise it returns exactly one chapter, titled [Untitled],
    whose text is the decoded text stripped and whose word count is the
    number of white-space delimited tokens of that text. *)
Theorem parse_txt_file_spec (content : bytes) :
  parse_txt_file content
  = if forallb isspace (decoded_text content)
    then Raise (HTTPException 400 (lit "File is empty"))
    else Ok [ {| title := lit "Untitled";
                 text := strip (decoded_text content);
                 word_count :=
                   Z.of_nat (count_tokens (strip (decoded_text content))) |} ].
Proof.
  unfold parse_txt_file. fold (decoded_text content).
  pose proof (strip_nil_iff (decoded_text content)) as Hs.
  destruct (forallb isspace (decoded_text content)).
  - rewrite (proj2 Hs eq_refl). reflexivity.
  - destruct (strip (decoded_text content)) as [|c r] eqn:E.
    + destruct Hs as [Hs _]. discriminate (Hs eq_refl).
    + unfold Chapter_init, len. rewrite split_ws_length. reflexivity.
Qed.

(** White space that is not UTF-8 (a lone no-break space of Latin-1) is
    empty content as well. *)
Example parse_txt_file_blank :
  parse_txt_file [" "%byte; "010"%byte; "160"%byte; "009"%byte]
  = Raise (HTTPException 400 (lit "File is empty")).
Proof. reflexivity. Qed.

Example parse_txt_file_words :
  parse_txt_file (blit "  The quick  brown fox ")
  = Ok [ {| title := lit "Untitled"; text := lit "The quick  brown fox";
            word_count := 4 |} ].
Proof. reflexivity. Qed.

(** ** The fetcher *)

Lemma len_app {A} (a b : list A) : len (a ++ b) = len a + len b.
Proof. unfold len. rewrite length_app. lia. Qed.

Lemma len_nonneg {A} (a : list A) : 0 <= len a.
Proof. unfold len. lia. Qed.


Lemma max_file_size_value : MAX_FILE_SIZE = 52428800.
Proof. reflexivity. Qed.

(** The loop stops with [too_large] exactly when the stream, added to what
    was read before, passes the ceiling; it has then read whole chunks, up
    to the first one that takes the total above the ceiling. *)
Lemma read_chunks_spec (chunks : list bytes) (err : option exn) :
  forall content : bytes,
    len content <= MAX_FILE_SIZE ->
    (snd (read_chunks chunks err content) = Return too_large
     <-> MAX_FILE_SIZE < len (content ++ concat chunks))
    /\ (forall r, snd (read_chunks chunks err content) = Return r ->
                  r = too_large
                  /\ MAX_FILE_SIZE < len (fst (read_chunks chunks err content)))
    /\ exists n : nat,
         fst (read_chunks chunks err content) = content ++ concat (firstn n chunks)
         /\ forall m : nat, (m < n)%nat ->
              len (content ++ concat (firstn m chunks)) <= MAX_FILE_SIZE.
Proof.
  induction chunks as [|chunk rest IH]; intros content Hc.
  - assert (Hs : snd (read_chunks [] err content) <> Return too_large
                 /\ (forall r, snd (read_chunks [] err content) <> Return r)
                 /\ fst (read_chunks [] err content) = content).
    { destruct err; simpl; repeat split; try discriminate; intros; discriminate. }
    destruct Hs as (Hs1 & Hs2 & Hs3). simpl concat. rewrite app_nil_r.
    split; [|split].
    + split; [intros H; destruct (Hs1 H)|lia].
    + intros r H. destruct (Hs2 r H).
    + exists 0%nat. simpl. rewrite app_nil_r. split; [exact Hs3|]. lia.
  - simpl read_chunks.
    destruct (len (content ++ chunk) >? MAX_FILE_SIZE) eqn:E.
    + apply Z.gtb_lt in E. simpl fst; simpl snd. split; [|split].
      * split; [intros _|reflexivity]. simpl concat.
        rewrite app_assoc, len_app. pose proof (len_nonneg (concat rest)). lia.
      * intros r [= <-]. split; [reflexivity|exact E].
      * exists 1%nat. simpl. rewrite !app_nil_r. split; [reflexivity|].
        intros m Hm. assert (m = 0%nat) as -> by lia. simpl.
        rewrite app_nil_r. exact Hc.
    + assert (Hc' : len (content ++ chunk) <= MAX_FILE_SIZE).
      { destruct (Z.gtb_spec (len (content ++ chunk)) MAX_FILE_SIZE);
          [discriminate|lia]. }
      destruct (IH (content ++ chunk) Hc') as (Hiff & Hret & n & Hfst & Hpre).
      simpl concat. rewrite (app_assoc content chunk). split; [exact Hiff|].
      split; [exact Hret|].
      exists (S n). simpl. rewrite (app_assoc content chunk).
      split; [exact Hfst|].
      intros [|m] Hm; simpl.
      * rewrite app_nil_r. exact Hc.
      * rewrite (app_assoc content chunk). apply Hpre. lia.
Qed.


(** [int] returns a number exactly where [int_of_str] has one, and raises
    a [ValueError] elsewhere. *)
Lemma int_ok (s : str) (n : Z) : int s = Ok n <-> int_of_str s = Some n.
Proof.
  unfold int, int_of_str. destruct (int_parse s); split; congruence.
Qed.

Lemma int_raise (s : str) (e : exn) :
  int s = Raise e -> int_of_str s = None /\ exists msg, e = ValueError msg.
Proof.
  unfold int, int_of_str.
  destruct (int_parse s); intros [= <-]; split; try reflexivity;
    eexists; reflexivity.
Qed.

(** [int] on a few strings: white space of any script around the number,
    digits of any script and single underscores are read; U+001F is no
    white space for [int], and 4301 digits are too many. *)
Example int_samples :
  int (lit " 42 ") = Ok 42
  /\ int (lit "-1_000") = Ok (-1000)
  /\ int [160; 1636; 1634; 12288] = Ok 42
  /\ int (lit "5, 5")
     = Raise (ValueError
                (lit "invalid literal for int() with base 10: '5, 5'"))
  /\ int [31; 53]
     = Raise (ValueError
                (lit "invalid literal for int() with base 10: '\x1f5'"))
  /\ int (repeat 57 4301)
     = Raise (ValueError
                (lit "Exceeds the limit (4300 digits) for integer string "
                 ++ lit "conversion: value has 4301 digits; use "
                 ++ lit "sys.set_int_max_str_digits() to increase the limit")).
Proof. repeat split; vm_compute; reflexivity. Qed.

Lemma declared_too_large_true (response : Response) :
  declared_too_large (headers response !! lit "content-length") = Ok true
  <-> declares_too_large response.
Proof.
  unfold declared_too_large, declares_too_large.
  destruct (headers response !! lit "content-length") as [s|].
  - split.
    + destruct s as [|c s]; [discriminate|].
      destruct (int (c :: s)) as [n|e] eqn:E; [|discriminate].
      intros [= H]. exists (c :: s), n. apply Z.gtb_lt in H.
      apply int_ok in E. auto.
    + intros (s' & n & [= <-] & Hi & Hn).
      destruct s as [|c s]; [discriminate Hi|].
      apply int_ok in Hi. rewrite Hi.
      f_equal. apply Z.gtb_lt. lia.
  - split; [discriminate|]. intros (s' & n & H & _). discriminate H.
Qed.




(** In URL mode the answer of the fetch is the answer of the handler. *)
Lemma process_file_fetch_return (env : Env) (request : Request)
  (file : option UploadFile) (fs : gmap str bytes)
  (url_request : URLRequest) (r : ProcessingResult) :
  read_url_request request = Some url_request ->
  url url_request <> [] ->
  fst (validate_url env (strip (url url_request))) = true ->
  snd (fetch env (strip (url url_request))) = Return r ->
  process_file env request file fs = (Ok r, fs).
Proof.
  intros Hr Hu Hv Hf. unfold process_file. rewrite Hr.
  destruct (url url_request) as [|c u] eqn:Eu; [destruct (Hu eq_refl)|].
  unfold url_mode. rewrite Eu in *.
  destruct (validate_url env (strip (c :: u))) as [ok msg]. simpl in Hv.
  subst ok. cbn [negb]. rewrite Hf. reflexivity.
Qed.

(** ** The handler: which failures become an answer *)

(** A [try] whose handler always returns a value returns a value. *)
Lemma try_except_total {A} (c : FS A) (h : exn -> FS A) (fs : gmap str bytes) :
  (forall e fs', exists a, fst (h e fs') = Ok a) ->
  exists a, fst (try_except c h fs) = Ok a.
Proof.
  intros Hh. unfold try_except.
  destruct (c fs) as [[a|e] fs']; [exists a; reflexivity|apply Hh].
Qed.

(** The parsing stage always answers: its [except] clauses catch every
    exception. *)
Lemma process_content_answers (env : Env) (content : bytes)
  (file_format source : str) (fs : gmap str bytes) :
  exists r, fst (process_content env content file_format source fs) = Ok r.
Proof.
  unfold process_content. apply try_except_total.
  intros e fs'. destruct e; eexists; reflexivity.
Qed.

(** [detect_format] raises nothing but its [HTTPException]. *)
Lemma detect_format_error (name : str) (ct : option str) (e : exn) :
  detect_format name ct = Raise e ->
  e = HTTPException 400 (lit "Unsupported file format. Supported: .txt, .epub").
Proof.
  unfold detect_format.
  destruct (endswith _ _); [discriminate|].
  destruct (endswith _ _); [discriminate|].
  destruct ct as [[|c ct]|]; try (intros [= <-]; reflexivity).
  destruct (contains _ _); [discriminate|].
  destruct (contains _ _); [discriminate|].
  intros [= <-]; reflexivity.
Qed.

(** Upload mode always answers. *)
Lemma upload_mode_never_throws (file : UploadFile) (e : exn) :
  upload_mode file <> Throw e.
Proof.
  unfold upload_mode. destruct (_ >? _); [discriminate|].
  destruct (detect_format _ _) as [f|e'] eqn:E; [discriminate|].
  apply detect_format_error in E. subst e'. discriminate.
Qed.

(** An exception leaves the handler only from the [try] of URL mode, and
    only when none of its three [except] clauses is for it. *)
Lemma process_file_escape (env : Env) (request : Request)
  (file : option UploadFile) (fs : gmap str bytes) (e : exn) :
  fst (process_file env request file fs) = Raise e ->
  exists url_request,
    read_url_request request = Some url_request
    /\ snd (fetch env (strip (url url_request))) = Throw e
    /\ @fetch_except (bytes * str) e = Throw e.
Proof.
  unfold process_file.
  assert (Hup : forall fl : flow (bytes * str * str),
             (forall e', fl <> Throw e') ->
             fst (match fl with
                  | Next (content, file_format, source) =>
                      process_content env content file_format source
                  | Return r => ret r
                  | Throw e' => raise e'
                  end fs) <> Raise e).
  { intros [[[content ff] source]|r|e'] Hn; simpl.
    - destruct (process_content_answers env content ff source fs) as [r ->].
      discriminate.
    - discriminate.
    - destruct (Hn e' eq_refl). }
  assert (Hmiss : forall e', upload_or_missing file <> Throw e').
  { intros e'. unfold upload_or_missing. destruct file; [|discriminate].
    apply upload_mode_never_throws. }
  destruct (read_url_request request) as [r|]; [|intros H; destruct (Hup _ Hmiss H)].
  destruct (url r) as [|c u] eqn:Eu; [intros H; destruct (Hup _ Hmiss H)|].
  intros H. exists r. split; [reflexivity|]. rewrite Eu.
  unfold url_mode in H. rewrite Eu in H.
  destruct (validate_url env (strip (c :: u))) as [[|] msg];
    simpl in H; [|discriminate].
  destruct (snd (fetch env (strip (c :: u)))) as [[content ff]|r'|e'] eqn:Ef.
  - destruct (process_content_answers env content ff (strip (c :: u)) fs)
      as [r' Hr]. simpl in H. rewrite Hr in H. discriminate.
  - discriminate.
  - destruct e'; simpl in H; try discriminate; injection H as <-;
      split; reflexivity || exact Ef.
Qed.

(** C3 fails on this input: the server answers [/notes] with the header
    [Content-Length: abc]; [int] raises [ValueError] inside the [try] of URL
    mode, no [except] clause there is for it, and the exception leaves the
    handler. *)
Theorem process_file_malformed_length_escapes :
  fst (process_file Sample.env
         (Sample.url_request (lit "http://example.com/notes")) None ∅)
  = Raise (ValueError (lit "invalid literal for int() with base 10: 'abc'")).
Proof. vm_compute. reflexivity. Qed.

(** The same for every environment: a URL that passes validation and a
    response whose [Content-Length] is not empty and not an integer. *)
Lemma process_file_value_error (env : Env) (request : Request)
  (file : option UploadFile) (fs : gmap str bytes)
  (url_request : URLRequest) (response : Response) (s : str) :
  read_url_request request = Some url_request ->
  url url_request <> [] ->
  fst (validate_url env (strip (url url_request))) = true ->
  requests_get env (strip (url url_request)) = Ok response ->
  raise_for_status response = Ok tt ->
  headers response !! lit "content-length" = Some s ->
  s <> [] -> int_of_str s = None ->
  exists msg, fst (process_file env request file fs) = Raise (ValueError msg).
Proof.
  intros Hr Hu Hv Hg Hs Hh Hne Hi.
  unfold process_file. rewrite Hr.
  destruct (url url_request) as [|c u] eqn:Eu; [destruct (Hu eq_refl)|].
  unfold url_mode. rewrite Eu in *.
  destruct (validate_url env (strip (c :: u))) as [ok msg]. simpl in Hv. subst ok.
  simpl negb. cbv iota.
  unfold fetch. rewrite Hg, Hs, Hh. unfold declared_too_large.
  destruct s as [|d s]; [destruct (Hne eq_refl)|].
  destruct (int (d :: s)) as [n|e] eqn:Ei.
  - apply int_ok in Ei. congruence.
  - destruct (int_raise _ _ Ei) as [_ [m ->]]. simpl.
    eexists. reflexivity.
Qed.

(** ** The EPUB parser *)

(** The parser, step by step: the temporary file is written, the archive
    is read from it and walked; the file is removed after the walk, and
    only then. *)
Lemma parse_epub_file_run (env : Env) (content : bytes) (fs : gmap str bytes) :
  parse_epub_file env content fs
  = let tmp_path := mktemp env fs in
    let staged := <[tmp_path := content]> fs in
    match read_epub env content with
    | Raise e => (Raise (epub_error e), staged)
    | Ok items =>
        match walk_items env items [] 1 with
        | Raise e => (Raise (epub_error e), staged)
        | Ok [] =>
            (Raise (HTTPException 400
                      (lit "No readable content found in EPUB file")),
             delete tmp_path staged)
        | Ok chapters => (Ok chapters, delete tmp_path staged)
        end
    end.
Proof.
  unfold parse_epub_file, try_except, bind, write_temp, read_path, lift,
    unlink_quietly, raise, ret.
  cbv zeta. rewrite lookup_insert_eq.
  destruct (read_epub env content) as [items|e].
  - destruct (walk_items env items [] 1) as [[|c chapters]|e].
    + reflexivity.
    + reflexivity.
    + destruct e; reflexivity.
  - destruct e; reflexivity.
Qed.

(** The loop is the filter rule followed by the title rule: it appends to
    the chapters it has the accepted items, numbered from the chapter
    number it has. *)
Lemma walk_items_spec (env : Env) (items : list EpubItem) :
  all_decodable items ->
  forall (chapters : list Chapter) (n : nat),
    walk_items env items chapters n
    = Ok (chapters
          ++ number_chapters env n (List.filter (accepted env) items)).
Proof.
  induction 1 as [|item rest Hitem _ IH]; intros chapters n.
  - simpl. rewrite app_nil_r. reflexivity.
  - cbn [walk_items List.filter].
    destruct (Z.eqb_spec (item_type item) ITEM_DOCUMENT) as [Hdoc|Hdoc].
    + destruct (Hitem Hdoc) as [html Hhtml]. rewrite Hhtml.
      assert (Htext : item_text env item
                      = Some (extract_text_from_html env html)).
      { unfold item_text. rewrite Hhtml. reflexivity. }
      assert (Hacc : accepted env item
                     = negb (len (strip (extract_text_from_html env html))
                             <? 100)).
      { unfold accepted. rewrite Htext, (proj2 (Z.eqb_eq _ _) Hdoc).
        rewrite Z.leb_antisym. reflexivity. }
      rewrite Hacc.
      destruct (len (strip (extract_text_from_html env html)) <? 100);
        cbn [negb]; [apply IH|].
      rewrite IH, <- app_assoc. cbn [number_chapters app].
      rewrite Htext. cbn [default].
      do 3 f_equal. f_equal.
      unfold chapter_title, needs_fallback_title.
      destruct (item_name item) as [[|c name]|]; reflexivity.
    + assert (Hacc : accepted env item = false).
      { unfold accepted. destruct (Z.eqb_spec (item_type item) ITEM_DOCUMENT);
          [contradiction|reflexivity]. }
      rewrite Hacc. apply IH.
Qed.

(** The loop raises only for a document that is not UTF-8. *)
Lemma walk_items_error (env : Env) (items : list EpubItem) :
  forall (chapters : list Chapter) (n : nat) (e : exn),
    walk_items env items chapters n = Raise e ->
    exists item,
      In item items /\ item_type item = ITEM_DOCUMENT
      /\ decode_utf8 (item_content item) = None
      /\ e = UnicodeDecodeError (decode_error_msg env (item_content item)).
Proof.
  induction items as [|item rest IH]; intros chapters n e; [discriminate|].
  simpl walk_items.
  assert (Hrest : forall c m, walk_items env rest c m = Raise e ->
                    exists item', In item' (item :: rest)
                      /\ item_type item' = ITEM_DOCUMENT
                      /\ decode_utf8 (item_content item') = None
                      /\ e = UnicodeDecodeError
                               (decode_error_msg env (item_content item'))).
  { intros c m H. destruct (IH c m e H) as (i & Hi & Hrest).
    exists i. split; [right; exact Hi|exact Hrest]. }
  destruct (Z.eqb_spec (item_type item) ITEM_DOCUMENT) as [Hdoc|Hdoc];
    [|apply Hrest].
  destruct (decode_utf8 (item_content item)) as [html|] eqn:Hd.
  - destruct (_ <? 100); apply Hrest.
  - intros [= <-]. exists item. repeat split; auto. left; reflexivity.
Qed.

Lemma parse_epub_file_ok (env : Env) (content : bytes) (fs : gmap str bytes)
  (items : list EpubItem) :
  read_epub env content = Ok items -> all_decodable items ->
  book_chapters env items <> [] ->
  fst (parse_epub_file env content fs) = Ok (book_chapters env items).
Proof.
  intros Hread Hdec Hne. rewrite parse_epub_file_run. cbv zeta.
  rewrite Hread, (walk_items_spec env items Hdec [] 1). cbn [app].
  fold (book_chapters env items).
  destruct (book_chapters env items); [contradiction|reflexivity].
Qed.

Lemma accepted_short (env : Env) (item : EpubItem) (t : str) :
  item_text env item = Some t -> len (strip t) < 100 ->
  accepted env item = false.
Proof.
  intros Ht Hl. unfold accepted. rewrite Ht.
  replace (100 <=? len (strip t)) with false
    by (symmetry; apply Z.leb_gt; exact Hl).
  apply andb_false_r.
Qed.

Lemma accepted_long (env : Env) (item : EpubItem) (t : str) :
  item_type item = ITEM_DOCUMENT ->
  item_text env item = Some t -> 100 <= len (strip t) ->
  accepted env item = true.
Proof.
  intros Hd Ht Hl. unfold accepted. rewrite Ht, Hd.
  replace (100 <=? len (strip t)) with true
    by (symmetry; apply Z.leb_le; exact Hl).
  reflexivity.
Qed.

(** C6: the filter rule and the title rule. For an archive whose documents
    are UTF-8, the parser returns the chapters of the accepted items (the
    documents whose normalized text has at least 100 characters), in
    package order; each is titled by the name of its item, unless the name
    is absent or ends in [.html] or [.xhtml], and then ["Chapter n"], where
    [n] counts the accepted items from 1. In particular an archive of one
    document of 50 characters and one of 500 characters whose name ends in
    [.xhtml] gives exactly one chapter, titled ["Chapter 1"]. *)
Theorem parse_epub_file_chapters (env : Env) (content : bytes)
  (fs : gmap str bytes) (items : list EpubItem) :
  read_epub env content = Ok items -> all_decodable items ->
  (book_chapters env items <> [] ->
   fst (parse_epub_file env content fs) = Ok (book_chapters env items))
  /\ (forall (short long : EpubItem) (short_text long_text name : str),
        items = [short; long] \/ items = [long; short] ->
        item_type short = ITEM_DOCUMENT -> item_type long = ITEM_DOCUMENT ->
        item_text env short = Some short_text -> len (strip short_text) = 50 ->
        item_text env long = Some long_text -> len (strip long_text) = 500 ->
        item_name long = Some name -> endswith name (lit ".xhtml") = true ->
        fst (parse_epub_file env content fs)
        = Ok [Chapter_init (lit "Chapter 1") long_text]).
Proof.
  intros Hread Hdec. split; [apply parse_epub_file_ok; assumption|].
  intros short long short_text long_text name Hitems Hds Hdl Hts Hls Htl Hll
    Hname Hext.
  assert (Hs : accepted env short = false)
    by (eapply accepted_short; [exact Hts|lia]).
  assert (Hl : accepted env long = true)
    by (eapply accepted_long; [exact Hdl|exact Htl|lia]).
  assert (Hbook : book_chapters env items
                  = [Chapter_init (lit "Chapter 1") long_text]).
  { unfold book_chapters.
    assert (Hf : List.filter (accepted env) items = [long]).
    { destruct Hitems as [-> | ->]; cbn [List.filter]; rewrite Hs, Hl;
        reflexivity. }
    rewrite Hf. cbn [number_chapters]. rewrite Htl. cbn [default].
    unfold chapter_title, needs_fallback_title. rewrite Hname, Hext.
    rewrite orb_true_r. reflexivity. }
  rewrite <- Hbook. apply parse_epub_file_ok; [assumption|assumption|].
  rewrite Hbook. discriminate.
Qed.

Lemma sample_book_decodable : all_decodable Sample.book_items.
Proof.
  unfold all_decodable, Sample.book_items.
  constructor; [intros _; eexists; vm_compute; reflexivity|].
  constructor; [intros _; eexists; vm_compute; reflexivity|].
  constructor.
Defined.

Lemma parse_epub_file_chapters_witness :
  read_epub Sample.env Sample.book = Ok Sample.book_items
  /\ len (lit Sample.short_text) = 50 /\ len (lit Sample.long_text) = 500
  /\ fst (parse_epub_file Sample.env Sample.book ∅)
     = Ok [Chapter_init (lit "Chapter 1") (lit Sample.long_text)].
Proof.
  split; [reflexivity|]. split; [reflexivity|]. split; [reflexivity|].
  destruct (parse_epub_file_chapters Sample.env Sample.book ∅
              Sample.book_items eq_refl sample_book_decodable) as [_ H].
  apply (H Sample.toc_item Sample.part1_item
           (lit Sample.short_text) (lit Sample.long_text)
           (lit "part1.xhtml")).
  - left. reflexivity.
  - reflexivity.
  - reflexivity.
  - vm_compute. reflexivity.
  - vm_compute. reflexivity.
  - vm_compute. reflexivity.
  - vm_compute. reflexivity.
  - reflexivity.
  - reflexivity.
Defined.

(** C8: the failures of the EPUB parser. When no item is accepted the
    parser raises [HTTPException(400, "No readable content found in EPUB
    file")]; an exception raised while the archive is opened or walked is
    raised again as [HTTPException(400, "Failed to parse EPUB file: " +
    str(e))]; and the parser returns a list only when the whole archive was
    walked, so a failure never gives a partial list: it gives an
    [HTTPException] and nothing else. *)
Theorem parse_epub_file_failures (env : Env) (content : bytes)
  (fs : gmap str bytes) :
  (forall items,
      read_epub env content = Ok items -> all_decodable items ->
      List.filter (accepted env) items = [] ->
      fst (parse_epub_file env content fs)
      = Raise (HTTPException 400
                 (lit "No readable content found in EPUB file")))
  /\ (forall e,
        read_epub env content = Raise e ->
        (forall code detail, e <> HTTPException code detail) ->
        fst (parse_epub_file env content fs)
        = Raise (HTTPException 400
                   (lit "Failed to parse EPUB file: " ++ str_of_exn e)))
  /\ (forall items e,
        read_epub env content = Ok items ->
        walk_items env items [] 1 = Raise e ->
        fst (parse_epub_file env content fs)
        = Raise (HTTPException 400
                   (lit "Failed to parse EPUB file: " ++ str_of_exn e)))
  /\ (forall chapters,
        fst (parse_epub_file env content fs) = Ok chapters ->
        chapters <> []
        /\ exists items,
             read_epub env content = Ok items
             /\ walk_items env items [] 1 = Ok chapters)
  /\ (forall e,
        fst (parse_epub_file env content fs) = Raise e ->
        exists code detail, e = HTTPException code detail).
Proof.
  rewrite parse_epub_file_run. cbv zeta. repeat split.
  - intros items Hread Hdec Hnone.
    rewrite Hread, (walk_items_spec env items Hdec [] 1), Hnone. reflexivity.
  - intros e Hread Hne. rewrite Hread. cbn [fst].
    destruct e; try reflexivity. destruct (Hne _ _ eq_refl).
  - intros items e Hread Hwalk. rewrite Hread, Hwalk. cbn [fst].
    destruct (walk_items_error env items [] 1 e Hwalk) as (item & _ & _ & _ & ->).
    reflexivity.
  - destruct (read_epub env content) as [items|e]; [|discriminate H].
    destruct (walk_items env items [] 1) as [[|c l]|e]; try discriminate H.
    injection H as <-. discriminate.
  - destruct (read_epub env content) as [items|e]; [|discriminate H].
    destruct (walk_items env items [] 1) as [[|c l]|e] eqn:E;
      try discriminate H.
    exists items. injection H as <-. split; [reflexivity|exact E].
  - intros e.
    destruct (read_epub env content) as [items|e'].
    + destruct (walk_items env items [] 1) as [[|c l]|e'']; intros [= <-].
      * eexists _, _. reflexivity.
      * destruct e''; eexists _, _; reflexivity.
    + intros [= <-]. destruct e'; eexists _, _; reflexivity.
Qed.

(** A book whose second document is not UTF-8: the first chapter was
    accepted, and the parser gives the error, not that chapter. *)
Example parse_epub_file_no_partial_list :
  fst (parse_epub_file Sample.env Sample.broken_book ∅)
  = Raise (HTTPException 400
             (lit "Failed to parse EPUB file: 'utf-8' codec can't decode bytes: invalid start byte")).
Proof. vm_compute. reflexivity. Qed.

(** When the archive cannot be opened, or a document is not UTF-8, the
    temporary file stays. *)
Lemma parse_epub_file_leak (env : Env) (content : bytes) (fs : gmap str bytes) :
  (exists e, read_epub env content = Raise e)
  \/ (exists items e, read_epub env content = Ok items
                      /\ walk_items env items [] 1 = Raise e) ->
  snd (parse_epub_file env content fs) !! mktemp env fs = Some content.
Proof.
  rewrite parse_epub_file_run. cbv zeta.
  intros [[e ->] | (items & e & -> & ->)]; cbn [snd]; apply lookup_insert_eq.
Qed.

(** C5 fails on this input: bytes that are no archive. The parser raises,
    and the temporary file it wrote is still there, with the bytes. *)
Theorem parse_epub_file_keeps_temp_file :
  fst (parse_epub_file Sample.env (blit "not an archive") ∅)
  = Raise (HTTPException 400
             (lit "Failed to parse EPUB file: File is not a zip file"))
  /\ snd (parse_epub_file Sample.env (blit "not an archive") ∅)
       !! Sample.tmp_path
     = Some (blit "not an archive").
Proof. split; vm_compute; reflexivity. Qed.

(** ** The handler: an empty URL *)

(** C10: a JSON body whose ["url"] is the empty string, and no upload. The
    handler answers "Missing input", whatever the headers of the request
    and whatever the environment: the validator has no part in the answer,
    and nothing is written. *)
Theorem process_file_empty_url (env : Env) (h : gmap str str)
  (m : gmap str json) (fs : gmap str bytes) :
  m !! lit "url" = Some (JString []) ->
  process_file env {| req_headers := h; req_json := Ok (JObject m) |} None fs
  = (Ok (Failure (lit "Missing input")
           (lit "Please provide either a URL or a file upload")),
     fs).
Proof.
  intros Hm. unfold process_file, read_url_request. cbn [req_headers req_json].
  destruct (contains (lit "application/json") _); [|reflexivity].
  unfold rbind, json_contains, json_getitem.
  rewrite Hm, bool_decide_eq_true_2 by eauto.
  reflexivity.
Qed.

Lemma process_file_empty_url_witness :
  process_file Sample.env (Sample.url_request []) None ∅
  = (Ok (Failure (lit "Missing input")
           (lit "Please provide either a URL or a file upload")),
     ∅).
Proof.
  apply (process_file_empty_url Sample.env
           (<[lit "content-type" := lit "application/json"]> ∅)
           (<[lit "url" := JString []]> ∅) ∅).
  apply lookup_insert_eq.
Defined.

(** The empty URL is read from the body, and it is the handler that sets it
    aside. *)
Example read_url_request_empty :
  read_url_request (Sample.url_request []) = Some {| url := [] |}.
Proof. vm_compute. reflexivity. Qed.

(** ** The file name of a URL *)

Lemma split_on_nonempty (sep : Z) (s : str) : split_on sep s <> [].
Proof.
  destruct s as [|c r]; simpl; [discriminate|].
  destruct (c =? sep); [discriminate|].
  destruct (split_on sep r); discriminate.
Qed.

Lemma split_on_app (sep : Z) (a b : str) :
  split_on sep (a ++ sep :: b) = split_on sep a ++ split_on sep b.
Proof.
  induction a as [|c a IH]; simpl.
  - rewrite Z.eqb_refl. reflexivity.
  - destruct (c =? sep); [rewrite IH; reflexivity|].
    rewrite IH. pose proof (split_on_nonempty sep a) as Hne.
    destruct (split_on sep a); [contradiction|reflexivity].
Qed.

Lemma last_of_app (l1 l2 : list str) :
  l2 <> [] -> last_of (l1 ++ l2) = last_of l2.
Proof.
  intros Hne. unfold last_of. induction l1 as [|x l1 IH]; [reflexivity|].
  simpl. destruct (l1 ++ l2) eqn:E; [|exact IH].
  apply app_eq_nil in E. destruct E as [_ E]. contradiction.
Qed.

Lemma last_of_cons (x : str) (l : list str) :
  l <> [] -> last_of (x :: l) = last_of l.
Proof. intros H. apply (last_of_app [x] l H). Qed.

Lemma split_on_nosep (sep : Z) (q : str) :
  forallb (fun c => negb (c =? sep)) q = true -> split_on sep q = [q].
Proof.
  induction q as [|d q IH]; intros Hq; [reflexivity|].
  simpl in Hq. apply andb_true_iff in Hq as [Hd Hq].
  apply negb_true_iff in Hd. simpl. rewrite Hd, (IH Hq). reflexivity.
Qed.

(** Text without separator, added to a string, goes to its last piece. *)
Lemma split_on_app_nosep (sep : Z) (p q : str) :
  forallb (fun c => negb (c =? sep)) q = true ->
  split_on sep (p ++ q)
  = removelast (split_on sep p) ++ [last_of (split_on sep p) ++ q].
Proof.
  intros Hq. induction p as [|c p IH].
  - simpl. apply split_on_nosep, Hq.
  - cbn [app split_on]. rewrite IH.
    pose proof (split_on_nonempty sep p) as Hne.
    destruct (split_on sep p) as [|h t]; [contradiction|].
    destruct (c =? sep).
    + destruct t; reflexivity.
    + destruct t; reflexivity.
Qed.

Lemma last_of_split_on_app (sep : Z) (p q : str) :
  forallb (fun c => negb (c =? sep)) q = true ->
  last_of (split_on sep (p ++ q)) = last_of (split_on sep p) ++ q.
Proof.
  intros Hq. rewrite (split_on_app_nosep sep p q Hq).
  unfold last_of at 1. apply last_last.
Qed.

Lemma take_drop_until (stop : Z -> bool) (s : str) :
  take_until stop s ++ drop_until stop s = s.
Proof.
  induction s as [|c r IH]; simpl; [reflexivity|].
  destruct (stop c); simpl; [reflexivity|rewrite IH; reflexivity].
Qed.

Lemma take_until_clean (stop : Z -> bool) (s : str) :
  forallb (fun c => negb (stop c)) (take_until stop s) = true.
Proof.
  induction s as [|c r IH]; simpl; [reflexivity|].
  destruct (stop c) eqn:E; simpl; [reflexivity|]. rewrite E, IH. reflexivity.
Qed.

Lemma drop_until_head (stop : Z -> bool) (s : str) (c : Z) (r : str) :
  drop_until stop s = c :: r -> stop c = true.
Proof.
  induction s as [|d s IH]; simpl; [discriminate|].
  destruct (stop d) eqn:E; [|exact IH]. intros [= <- _]. exact E.
Qed.

Lemma take_until_app (stop : Z -> bool) (x q : str) :
  forallb (fun c => negb (stop c)) x = true ->
  (forall c r, q = c :: r -> stop c = true) ->
  take_until stop (x ++ q) = x.
Proof.
  intros Hx Hq. induction x as [|d x IH]; simpl.
  - destruct q as [|c r]; [reflexivity|]. simpl.
    rewrite (Hq c r eq_refl). reflexivity.
  - simpl in Hx. apply andb_true_iff in Hx as [Hd Hx].
    apply negb_true_iff in Hd. rewrite Hd, (IH Hx). reflexivity.
Qed.

(** [s.split(sep)[0]] is [s] up to its first separator. *)
Lemma first_of_split_on (sep : Z) (s : str) :
  first_of (split_on sep s) = take_until (fun c => c =? sep) s.
Proof.
  induction s as [|c r IH]; simpl; [reflexivity|].
  destruct (c =? sep); [reflexivity|].
  pose proof (split_on_nonempty sep r) as Hne.
  destruct (split_on sep r) as [|h t]; [contradiction|].
  simpl in *. rewrite IH. reflexivity.
Qed.

Lemma split_on_pieces (f : Z -> bool) (sep : Z) (s : str) :
  forallb f s = true ->
  Forall (fun piece => forallb f piece = true) (split_on sep s).
Proof.
  induction s as [|c r IH]; intros Hs; simpl.
  - repeat constructor.
  - simpl in Hs. apply andb_true_iff in Hs as [Hc Hr]. specialize (IH Hr).
    destruct (c =? sep); [constructor; [reflexivity|exact IH]|].
    destruct (split_on sep r) as [|h t]; [repeat constructor; simpl; rewrite Hc; reflexivity|].
    inversion IH as [|? ? Hh Ht]; subst.
    constructor; [simpl; rewrite Hc, Hh; reflexivity|exact Ht].
Qed.

Lemma last_of_Forall (P : str -> Prop) (l : list str) :
  P [] -> Forall P l -> P (last_of l).
Proof.
  intros H0 Hl. unfold last_of. induction Hl as [|x l Hx Hl IH]; [exact H0|].
  simpl. destruct l; [exact Hx|exact IH].
Qed.

Lemma after_authority_suffix (s : str) : exists a, s = a ++ after_authority s.
Proof.
  induction s as [|c r IH]; [exists []; reflexivity|].
  cbn [after_authority]. destruct r as [|d r'].
  - exists [c]. reflexivity.
  - destruct ((c =? 47) && (d =? 47)).
    + exists (c :: d :: take_until (Z.eqb 47) r'). simpl.
      rewrite take_drop_until. reflexivity.
    + destruct IH as [a Ha]. exists (c :: a). cbn [app]. f_equal. exact Ha.
Qed.

Lemma after_authority_head (s : str) (c : Z) (r : str) :
  after_authority s = c :: r -> c = 47.
Proof.
  induction s as [|x s IH]; [discriminate|].
  cbn [after_authority]. destruct s as [|d s'].
  - discriminate.
  - destruct ((x =? 47) && (d =? 47)); [|exact IH].
    intros H. apply drop_until_head in H. apply Z.eqb_eq in H. auto.
Qed.

(** Where the two splits do find the final segment of the path: the file
    name given to format detection is that segment, with the query and the
    fragment stripped, for every URL that has a path, has no [/] in its
    query or fragment, and has no fragment without a query before it. *)
Theorem filename_of_url_final_segment (url : str) :
  url_path url <> [] ->
  forallb (fun c => negb (c =? 47)) (url_tail url) = true ->
  (forall rest, url_tail url <> 35 :: rest) ->
  filename_of_url url = final_path_segment url.
Proof.
  intros Hpath Hslash Hfrag.
  unfold filename_of_url, final_path_segment, url_path, url_tail in *.
  set (stop := fun c : Z => (c =? 63) || (c =? 35)) in *.
  set (p := take_until stop url) in *. set (q := drop_until stop url) in *.
  assert (Hurl : url = p ++ q) by (symmetry; apply take_drop_until).
  rewrite Hurl at 1. rewrite (last_of_split_on_app 47 p q Hslash).
  rewrite first_of_split_on.
  assert (Hclean : forallb (fun c => negb (c =? 63)) p = true).
  { pose proof (take_until_clean stop url) as H. fold p in H.
    rewrite forallb_forall in *. intros c Hc. specialize (H c Hc).
    unfold stop in H. destruct (c =? 63); [discriminate H|reflexivity]. }
  rewrite take_until_app.
  - destruct (after_authority p) as [|c s'] eqn:Ea; [contradiction|].
    pose proof (after_authority_head p c s' Ea) as ->.
    destruct (after_authority_suffix p) as [a Ha]. rewrite Ea in Ha.
    rewrite Ha at 1. rewrite split_on_app.
    rewrite last_of_app by apply split_on_nonempty.
    cbn [split_on]. rewrite Z.eqb_refl.
    rewrite last_of_cons by apply split_on_nonempty. reflexivity.
  - apply (last_of_Forall (fun x => forallb (fun c => negb (c =? 63)) x = true));
      [reflexivity|]. apply split_on_pieces, Hclean.
  - intros c r Hq. pose proof (drop_until_head stop url c r Hq) as Hc.
    unfold stop in Hc. destruct (Z.eqb_spec c 63) as [->|Hne]; [reflexivity|].
    simpl in Hc. apply Z.eqb_eq in Hc. subst c. destruct (Hfrag r Hq).
Qed.

Lemma filename_of_url_final_segment_witness :
  filename_of_url (lit "https://example.com/books/tale.epub?page=2#top")
  = lit "tale.epub"
  /\ filename_of_url (lit "https://example.com/books/tale.epub?page=2#top")
     = final_path_segment (lit "https://example.com/books/tale.epub?page=2#top").
Proof.
  split; [reflexivity|].
  apply (filename_of_url_final_segment
           (lit "https://example.com/books/tale.epub?page=2#top")).
  - vm_compute. discriminate.
  - reflexivity.
  - intros rest. vm_compute. discriminate.
Defined.

(** C9 fails on this input: the validator allows the URL
    [http://example.com/notes.txt?next=/x.epub], whose query holds a [/].
    The final segment of its path is [notes.txt], but the URL is split at
    [/] before it is cut at [?], so the file name given to format detection
    is [x.epub], out of the query: the text is handed on as an EPUB and the
    handler answers "Parse error", where the same address without the
    query is read as text. With a fragment and no query
    ([.../notes.txt#part2]), the fragment stays in the file name. *)
Lemma filename_of_url_query_slash :
  validate_url Sample.env (lit "http://example.com/notes.txt?next=/x.epub")
  = (true, [])
  /\ final_path_segment (lit "http://example.com/notes.txt?next=/x.epub")
     = lit "notes.txt"
  /\ filename_of_url (lit "http://example.com/notes.txt?next=/x.epub")
     = lit "x.epub"
  /\ snd (fetch Sample.env (lit "http://example.com/notes.txt?next=/x.epub"))
     = Next (blit "hello world", lit "epub")
  /\ final_path_segment (lit "http://example.com/notes.txt#part2")
     = lit "notes.txt"
  /\ filename_of_url (lit "http://example.com/notes.txt#part2")
     = lit "notes.txt#part2"
  /\ fst (process_file Sample.env
            (Sample.url_request
               (lit "http://example.com/notes.txt?next=/x.epub")) None ∅)
     = Ok (Failure (lit "Parse error")
             (lit "Failed to parse EPUB file: File is not a zip file"))
  /\ fst (process_file Sample.env
            (Sample.url_request (lit "http://example.com/notes.txt")) None ∅)
     = Ok (Success [Chapter_init (lit "Untitled") (lit "hello world")] 2
             (lit "http://example.com/notes.txt") (lit "txt")).
Proof. repeat split; vm_compute; reflexivity. Qed.

(** ** Further properties of the pipeline *)


(** Only the schemes [http] and [https] pass the validator. *)
Theorem validate_url_scheme (env : Env) (url : str) (parsed : ParseResult) :
  urlparse env url = Ok parsed ->
  scheme parsed <> lit "http" -> scheme parsed <> lit "https" ->
  validate_url env url
  = (false, lit "Only HTTP and HTTPS protocols are allowed").
Proof.
  intros Hp H1 H2. unfold validate_url. rewrite Hp.
  unfold str_in. cbn [existsb].
  destruct (str_eqb (scheme parsed) (lit "http")) eqn:E1;
    [apply str_eqb_eq in E1; contradiction|].
  destruct (str_eqb (scheme parsed) (lit "https")) eqn:E2;
    [apply str_eqb_eq in E2; contradiction|].
  reflexivity.
Qed.

Lemma validate_url_scheme_witness :
  validate_url Sample.env (lit "ftp://example.com/book.txt")
  = (false, lit "Only HTTP and HTTPS protocols are allowed")
  /\ validate_url Sample.env (lit "example.com/book.txt")
     = (false, lit "Only HTTP and HTTPS protocols are allowed").
Proof.
  split.
  - apply (validate_url_scheme Sample.env _
             {| scheme := lit "ftp"; hostname := Some (lit "example.com") |});
      [reflexivity|discriminate|discriminate].
  - apply (validate_url_scheme Sample.env _
             {| scheme := []; hostname := None |});
      [reflexivity|discriminate|discriminate].
Defined.

(** For a host name that is not one of the two literals and whose lookup
    gives an IPv4 address, [is_private_ip] is membership of that address in
    the five IPv4 ranges: the two IPv6 networks of the list hold no such
    address, and 0.0.0.0 as a resolved address is in none. *)
Theorem is_private_ip_resolved (env : Env) (host : str) (ip : Z) :
  str_in (lower host) [lit "localhost"; lit "0.0.0.0"] = false ->
  gethostbyname env host = Ok (IPv4Address ip) ->
  0 <= ip < 2 ^ 32 ->
  (is_private_ip env host = true <-> blocked4 ip).
Proof.
  intros Hlit Hg Hip. unfold is_private_ip. rewrite Hlit, Hg. split.
  - apply private_ranges_v4_inv, Hip.
  - apply private_ranges_v4.
Qed.

Lemma is_private_ip_resolved_witness :
  (is_private_ip Sample.env (lit "example.com") = true
   <-> blocked4 (ipv4 93 184 216 34))
  /\ is_private_ip Sample.env (lit "example.com") = false.
Proof.
  split; [|reflexivity].
  apply (is_private_ip_resolved Sample.env (lit "example.com")
           (ipv4 93 184 216 34)).
  - reflexivity.
  - reflexivity.
  - unfold ipv4. lia.
Defined.

(** An exception can leave the handler from one place only: the [try] of
    URL mode, for an exception that is none of [requests.Timeout],
    [requests.RequestException] and [HTTPException]. Every other failure
    becomes an answer. *)
Theorem process_file_escapes_from_fetch (env : Env) (request : Request)
  (file : option UploadFile) (fs : gmap str bytes) (e : exn) :
  fst (process_file env request file fs) = Raise e ->
  exists url_request,
    read_url_request request = Some url_request
    /\ snd (fetch env (strip (url url_request))) = Throw e
    /\ (forall msg, e <> Timeout msg)
    /\ (forall msg, e <> RequestException msg)
    /\ (forall code detail, e <> HTTPException code detail).
Proof.
  intros H. destruct (process_file_escape env request file fs e H)
    as (r & Hr & Hf & He).
  exists r. split; [exact Hr|]. split; [exact Hf|].
  destruct e; simpl in He; try discriminate He;
    repeat split; intros; discriminate.
Qed.

Lemma process_file_escapes_from_fetch_witness :
  exists url_request,
    read_url_request (Sample.url_request (lit "http://example.com/notes"))
    = Some url_request
    /\ snd (fetch Sample.env (strip (url url_request)))
       = Throw (ValueError
                  (lit "invalid literal for int() with base 10: 'abc'"))
    /\ (forall msg, ValueError (lit "invalid literal for int() with base 10: 'abc'")
                    <> Timeout msg)
    /\ (forall msg, ValueError (lit "invalid literal for int() with base 10: 'abc'")
                    <> RequestException msg)
    /\ (forall code detail,
           ValueError (lit "invalid literal for int() with base 10: 'abc'")
           <> HTTPException code detail).
Proof.
  apply (process_file_escapes_from_fetch Sample.env
           (Sample.url_request (lit "http://example.com/notes")) None ∅).
  vm_compute. reflexivity.
Defined.

(** When the archive was read and walked to its end, whether chapters were
    found or not, the temporary file is removed: the file system is what it
    was before, for a temporary name that was free. *)
Theorem parse_epub_file_removes_temp_file (env : Env) (content : bytes)
  (fs : gmap str bytes) (items : list EpubItem) :
  read_epub env content = Ok items -> all_decodable items ->
  fs !! mktemp env fs = None ->
  snd (parse_epub_file env content fs) = fs.
Proof.
  intros Hread Hdec Hfree. rewrite parse_epub_file_run. cbv zeta.
  rewrite Hread, (walk_items_spec env items Hdec [] 1).
  destruct ([] ++ _); cbn [snd]; rewrite delete_insert_eq;
    apply delete_id; exact Hfree.
Qed.

Lemma parse_epub_file_removes_temp_file_witness :
  snd (parse_epub_file Sample.env Sample.book ∅) = ∅.
Proof.
  apply (parse_epub_file_removes_temp_file Sample.env Sample.book ∅
           Sample.book_items eq_refl sample_book_decodable).
  reflexivity.
Defined.

(** ** The text of an HTML document *)

(** What a run of characters followed by white space contributes. *)
Lemma split_ws_from_space (cur x : str) (w : Z) (y : str) :
  isspace w = true ->
  split_ws_from cur (x ++ w :: y) = split_ws_from cur x ++ split_ws y.
Proof.
  intros Hw. revert cur. induction x as [|c x IH]; intros cur.
  - cbn [app split_ws_from]. rewrite Hw. destruct cur; reflexivity.
  - cbn [app split_ws_from]. destruct (isspace c).
    + destruct cur; rewrite IH; reflexivity.
    + apply IH.
Qed.

Lemma split_ws_space (x : str) (w : Z) (y : str) :
  isspace w = true -> split_ws (x ++ w :: y) = split_ws x ++ split_ws y.
Proof. apply split_ws_from_space. Qed.

Lemma split_ws_blank (s : str) : forallb isspace s = true -> split_ws s = [].
Proof.
  unfold split_ws. induction s as [|c s IH]; [reflexivity|].
  cbn [forallb split_ws_from]. intros [Hc Hs]%andb_true_iff. rewrite Hc.
  apply IH, Hs.
Qed.

Lemma split_ws_leading (ws s : str) :
  forallb isspace ws = true -> split_ws (ws ++ s) = split_ws s.
Proof.
  unfold split_ws. induction ws as [|c ws IH]; [reflexivity|].
  cbn [forallb app split_ws_from]. intros [Hc Hs]%andb_true_iff. rewrite Hc.
  apply IH, Hs.
Qed.

Lemma split_ws_trailing (s ws : str) :
  forallb isspace ws = true -> split_ws (s ++ ws) = split_ws s.
Proof.
  intros Hws. destruct ws as [|w ws]; [rewrite app_nil_r; reflexivity|].
  cbn [forallb] in Hws. apply andb_true_iff in Hws as [Hw Hws].
  rewrite split_ws_space by exact Hw.
  rewrite (split_ws_blank ws Hws). apply app_nil_r.
Qed.

(** [lstrip] removes a run of white space. *)
Lemma lstrip_split (s : str) :
  exists ws, forallb isspace ws = true /\ s = ws ++ lstrip s.
Proof.
  induction s as [|c s (ws & Hws & Hs)]; [exists []; split; reflexivity|].
  cbn [lstrip]. destruct (isspace c) eqn:E.
  - exists (c :: ws). cbn [forallb app]. rewrite E, Hws. split; [reflexivity|].
    f_equal. exact Hs.
  - exists []. split; reflexivity.
Qed.

Lemma rstrip_split (s : str) :
  exists ws, forallb isspace ws = true /\ s = rstrip s ++ ws.
Proof.
  destruct (lstrip_split (rev s)) as (ws & Hws & Hs).
  exists (rev ws). split; [rewrite forallb_rev; exact Hws|].
  unfold rstrip. rewrite <- rev_app_distr, <- Hs, rev_involutive. reflexivity.
Qed.

(** Stripping a text keeps its tokens. *)
Lemma split_ws_strip (s : str) : split_ws (strip s) = split_ws s.
Proof.
  unfold strip.
  destruct (lstrip_split s) as (ws & Hws & Hs).
  destruct (rstrip_split (lstrip s)) as (ws' & Hws' & Hs').
  rewrite Hs at 2. rewrite split_ws_leading by exact Hws.
  rewrite Hs' at 2. rewrite split_ws_trailing by exact Hws'. reflexivity.
Qed.

Lemma split_2sp_step (c d : Z) (r : str) :
  split_2sp (c :: d :: r)
  = if (c =? 32) && (d =? 32) then [] :: split_2sp r
    else match split_2sp (d :: r) with
         | h :: t => (c :: h) :: t
         | [] => [[c]]
         end.
Proof. reflexivity. Qed.

Lemma split_2sp_nonempty (s : str) : split_2sp s <> [].
Proof.
  destruct s as [|c [|d r]]; try discriminate.
  rewrite split_2sp_step. destruct ((c =? 32) && (d =? 32)); [discriminate|].
  destruct (split_2sp (d :: r)); discriminate.
Qed.

(** The tokens of the pieces of [split("  ")] are the tokens of the
    line. *)
Lemma split_2sp_tokens_from (n : nat) :
  forall (s cur : str), (length s <= n)%nat ->
    match split_2sp s with
    | h :: t => split_ws_from cur h ++ concat (map split_ws t)
    | [] => []
    end = split_ws_from cur s.
Proof.
  induction n as [|n IH]; intros s cur Hn.
  - destruct s; [|simpl in Hn; lia]. cbn. apply app_nil_r.
  - destruct s as [|c [|d r']].
    + cbn. apply app_nil_r.
    + cbn [split_2sp concat map]. apply app_nil_r.
    + rewrite split_2sp_step.
      destruct ((c =? 32) && (d =? 32)) eqn:E.
      * apply andb_true_iff in E as [->%Z.eqb_eq ->%Z.eqb_eq].
        assert (Hr : concat (map split_ws (split_2sp r')) = split_ws r').
        { specialize (IH r' [] ltac:(simpl in Hn; lia)).
          destruct (split_2sp r'); [exact IH|exact IH]. }
        cbn [map concat]. rewrite Hr.
        change (32 :: 32 :: r') with ([] ++ 32 :: 32 :: r').
        rewrite split_ws_from_space by reflexivity.
        reflexivity.
      * specialize (IH (d :: r')).
        destruct (split_2sp (d :: r')) as [|h t] eqn:Es.
        { destruct (split_2sp_nonempty _ Es). }
        cbn [split_ws_from]. destruct (isspace c).
        -- destruct cur.
           ++ apply (IH [] ltac:(simpl in Hn |- *; lia)).
           ++ cbn [app]. f_equal.
              apply (IH [] ltac:(simpl in Hn |- *; lia)).
        -- apply (IH (c :: cur) ltac:(simpl in Hn |- *; lia)).
Qed.

Lemma split_2sp_tokens (s : str) :
  concat (map split_ws (split_2sp s)) = split_ws s.
Proof.
  pose proof (split_2sp_tokens_from (length s) s [] (Nat.le_refl _)) as H.
  destruct (split_2sp s); exact H.
Qed.

(** The tokens of the lines of [splitlines()] are the tokens of the text:
    every line boundary is white space. *)
Lemma islinebreak_isspace (c : Z) : islinebreak c = true -> isspace c = true.
Proof.
  unfold islinebreak, isspace. intros H.
  repeat match type of H with
         | (_ || _) = true => apply orb_true_iff in H as [H|H]
         | (_ && _) = true => apply andb_true_iff in H as [? ?]
         end;
    repeat match goal with
           | H : (_ <=? _) = true |- _ => apply Z.leb_le in H
           | H : (_ =? _) = true |- _ => apply Z.eqb_eq in H
           end;
    repeat match goal with
           | |- (_ || _) = true => apply orb_true_iff
           end.
  all: repeat rewrite orb_true_iff; repeat rewrite andb_true_iff;
    repeat rewrite Z.leb_le; repeat rewrite Z.eqb_eq; lia.
Qed.

Lemma splitlines_from_step (cur : str) (c : Z) (r : str) :
  splitlines_from cur (c :: r)
  = if islinebreak c then
      match r with
      | d :: r' =>
          if (c =? 13) && (d =? 10) then rev cur :: splitlines_from [] r'
          else rev cur :: splitlines_from [] r
      | [] => [rev cur]
      end
    else splitlines_from (c :: cur) r.
Proof. destruct r; reflexivity. Qed.

Lemma splitlines_tokens_from (n : nat) :
  forall (s cur : str), (length s <= n)%nat ->
    concat (map split_ws (splitlines_from cur s)) = split_ws (rev cur ++ s).
Proof.
  induction n as [|n IH]; intros s cur Hn.
  - destruct s; [|simpl in Hn; lia]. rewrite app_nil_r.
    destruct cur; [reflexivity|]. cbn [splitlines_from map concat].
    apply app_nil_r.
  - destruct s as [|c r].
    + rewrite app_nil_r. destruct cur; [reflexivity|].
      cbn [splitlines_from map concat]. apply app_nil_r.
    + rewrite splitlines_from_step. destruct (islinebreak c) eqn:Ec.
      * pose proof (islinebreak_isspace c Ec) as Hc.
        rewrite split_ws_space by exact Hc.
        destruct r as [|d r'].
        -- cbn [map concat]. reflexivity.
        -- destruct ((c =? 13) && (d =? 10)) eqn:E; cbn [map concat]; f_equal.
           ++ apply andb_true_iff in E as [_ ->%Z.eqb_eq].
              rewrite (IH r' [] ltac:(simpl in Hn; lia)). reflexivity.
           ++ apply (IH (d :: r') [] ltac:(simpl in Hn |- *; lia)).
      * rewrite (IH r (c :: cur) ltac:(simpl in Hn; lia)).
        cbn [rev]. rewrite <- app_assoc. reflexivity.
Qed.

Lemma splitlines_tokens (s : str) :
  concat (map split_ws (splitlines s)) = split_ws s.
Proof. apply (splitlines_tokens_from (length s) s []). lia. Qed.

(** Joining the chunks that are not empty with single spaces keeps the
    tokens of all the chunks. *)
Lemma join_tokens (l : list str) :
  split_ws (join (lit " ")
              (List.filter (fun chunk => negb (str_eqb chunk [])) l))
  = concat (map split_ws l).
Proof.
  induction l as [|x l IH]; [reflexivity|].
  cbn [List.filter map concat]. destruct x as [|c x].
  - cbn [str_eqb negb]. exact IH.
  - cbn [str_eqb negb]. rewrite <- IH.
    destruct (List.filter _ l) as [|y l'] eqn:E.
    + cbn [join]. symmetry. apply app_nil_r.
    + change (join (lit " ") ((c :: x) :: y :: l'))
        with ((c :: x) ++ 32 :: join (lit " ") (y :: l')).
      apply split_ws_space. reflexivity.
Qed.

Lemma extract_tokens (env : Env) (html : str) :
  split_ws (extract_text_from_html env html)
  = split_ws (soup_get_text env html).
Proof.
  unfold extract_text_from_html. rewrite join_tokens.
  rewrite <- splitlines_tokens.
  induction (splitlines (soup_get_text env html)) as [|line lines IH];
    [reflexivity|].
  cbn [map flat_map concat]. rewrite map_app, concat_app, IH. f_equal.
  rewrite map_map.
  rewrite (map_ext (fun x => split_ws (strip x)) split_ws)
    by apply split_ws_strip.
  rewrite split_2sp_tokens. apply split_ws_strip.
Qed.

(** *** The shape of the normalized text *)

Lemma no_double_space_app (a b : str) :
  no_double_space (a ++ b) = true ->
  no_double_space a = true /\ no_double_space b = true.
Proof.
  induction a as [|c a IH]; [intros H; split; [reflexivity|exact H]|].
  cbn [app no_double_space]. intros [H1 H2]%andb_true_iff.
  destruct (IH H2) as [Ha Hb]. split; [|exact Hb].
  rewrite Ha, andb_true_r. destruct a as [|d a]; [reflexivity|exact H1].
Qed.

Lemma no_double_space_glue (x y : str) (c d : Z) :
  no_double_space (x ++ [c]) = true -> no_double_space (d :: y) = true ->
  isspace c = false -> isspace d = false ->
  no_double_space ((x ++ [c]) ++ 32 :: d :: y) = true.
Proof.
  intros Hx Hy Hc Hd.
  assert (Hc32 : (c =? 32) = false)
    by (destruct (Z.eqb_spec c 32) as [->|]; [discriminate Hc|reflexivity]).
  assert (Hd32 : (d =? 32) = false)
    by (destruct (Z.eqb_spec d 32) as [->|]; [discriminate Hd|reflexivity]).
  induction x as [|e x IH].
  - cbn [app no_double_space]. cbn [no_double_space] in Hy.
    apply andb_true_iff in Hy as [Hy1 Hy2].
    rewrite Hy2, Hy1, Hc32, Hd32. reflexivity.
  - cbn [app no_double_space] in Hx |- *.
    apply andb_true_iff in Hx as [H1 H2]. rewrite (IH H2), andb_true_r.
    destruct x; exact H1.
Qed.

Lemma strip_infix (s : str) :
  exists a b, forallb isspace a = true /\ forallb isspace b = true
              /\ s = a ++ strip s ++ b.
Proof.
  destruct (lstrip_split s) as (a & Ha & Hs).
  destruct (rstrip_split (lstrip s)) as (b & Hb & Ht).
  exists a, b. split; [exact Ha|]. split; [exact Hb|].
  unfold strip. rewrite <- Ht. exact Hs.
Qed.

Lemma strip_forallb (f : Z -> bool) (s : str) :
  forallb f s = true -> forallb f (strip s) = true.
Proof.
  destruct (strip_infix s) as (a & b & _ & _ & Hs). intros H.
  rewrite Hs, !forallb_app in H.
  apply andb_true_iff in H as [_ H]. apply andb_true_iff in H as [H _].
  exact H.
Qed.

Lemma strip_no_double_space (s : str) :
  no_double_space s = true -> no_double_space (strip s) = true.
Proof.
  destruct (strip_infix s) as (a & b & _ & _ & Hs). intros H.
  rewrite Hs in H. apply no_double_space_app in H as [_ H].
  apply no_double_space_app in H as [H _]. exact H.
Qed.

(** What [strip] returns neither starts nor ends with white space, and
    [strip] changes no such text. *)
Lemma strip_clean_ends (s : str) : clean_ends (strip s).
Proof.
  unfold clean_ends, strip. split.
  - pose proof (lstrip_head s) as Hh.
    destruct (rstrip_split (lstrip s)) as (b & _ & Ht).
    destruct (rstrip (lstrip s)) as [|c r]; [exact I|].
    rewrite Ht in Hh. exact Hh.
  - unfold rstrip. rewrite rev_involutive. apply lstrip_head.
Qed.

Lemma lstrip_clean (s : str) :
  match s with [] => True | c :: _ => isspace c = false end -> lstrip s = s.
Proof. destruct s as [|c s]; [reflexivity|]. cbn. intros ->. reflexivity. Qed.

Lemma strip_fixed (s : str) : clean_ends s -> strip s = s.
Proof.
  intros [Hh Hl]. unfold strip. rewrite (lstrip_clean s Hh).
  unfold rstrip. rewrite (lstrip_clean (rev s) Hl). apply rev_involutive.
Qed.

(** The lines of [splitlines()] hold no line boundary. *)
Lemma splitlines_from_clean (n : nat) :
  forall (s cur : str), (length s <= n)%nat ->
    no_linebreak cur = true ->
    Forall (fun line => no_linebreak line = true) (splitlines_from cur s).
Proof.
  unfold no_linebreak.
  induction n as [|n IH]; intros s cur Hn Hcur.
  - destruct s; [|simpl in Hn; lia].
    destruct cur; cbn [splitlines_from]; repeat constructor.
    rewrite forallb_rev. exact Hcur.
  - destruct s as [|c r].
    + destruct cur; cbn [splitlines_from]; repeat constructor.
      rewrite forallb_rev. exact Hcur.
    + rewrite splitlines_from_step. destruct (islinebreak c) eqn:Ec.
      * assert (Hrev : forallb (fun c => negb (islinebreak c)) (rev cur) = true)
          by (rewrite forallb_rev; exact Hcur).
        destruct r as [|d r']; [repeat constructor; exact Hrev|].
        destruct ((c =? 13) && (d =? 10)); constructor; try exact Hrev.
        -- apply IH; [simpl in Hn; lia|reflexivity].
        -- apply IH; [simpl in Hn |- *; lia|reflexivity].
      * apply IH; [simpl in Hn; lia|].
        cbn [forallb]. rewrite Ec, Hcur. reflexivity.
Qed.

(** The pieces of [split("  ")] hold no two spaces in a row, and keep what
    holds of every character of the line. *)
Lemma split_2sp_pieces (f : Z -> bool) (n : nat) :
  forall s : str, (length s <= n)%nat -> forallb f s = true ->
    Forall (fun piece => forallb f piece = true
                         /\ no_double_space piece = true) (split_2sp s).
Proof.
  induction n as [|n IH]; intros s Hn Hs.
  - destruct s; [|simpl in Hn; lia]. repeat constructor.
  - destruct s as [|c [|d r]].
    + repeat constructor.
    + repeat constructor. exact Hs.
    + rewrite split_2sp_step. cbn [forallb] in Hs.
      apply andb_true_iff in Hs as [Hc Hs].
      destruct ((c =? 32) && (d =? 32)) eqn:E.
      * constructor; [split; reflexivity|].
        apply IH; [simpl in Hn; lia|].
        cbn [forallb] in Hs. apply andb_true_iff in Hs as [_ Hs]. exact Hs.
      * pose proof (IH (d :: r) ltac:(simpl in Hn |- *; lia) Hs) as Hp.
        pose proof (split_2sp_nonempty (d :: r)) as Hne.
        assert (Hhead : match split_2sp (d :: r) with
                        | h :: _ => match h with
                                    | e :: _ => e = d
                                    | [] => (d =? 32) = true
                                    end
                        | [] => True
                        end).
        { destruct r as [|e r']; [reflexivity|]. rewrite split_2sp_step.
          destruct ((d =? 32) && (e =? 32)) eqn:E';
            [apply andb_true_iff in E' as [E' _]; exact E'|].
          destruct (split_2sp (e :: r')); reflexivity. }
        destruct (split_2sp (d :: r)) as [|h t]; [contradiction|].
        inversion Hp as [|? ? [Hh1 Hh2] Ht]; subst.
        constructor; [|exact Ht]. split.
        -- cbn [forallb]. rewrite Hc, Hh1. reflexivity.
        -- cbn [no_double_space]. rewrite Hh2, andb_true_r.
           destruct h as [|e h']; [reflexivity|]. subst e. rewrite E.
           reflexivity.
Qed.

Lemma join_step (x y : str) (l : list str) :
  join (lit " ") (x :: y :: l) = x ++ 32 :: join (lit " ") (y :: l).
Proof. reflexivity. Qed.

(** Chunks that are not empty, start and end with no white space and hold
    neither a line boundary nor two spaces in a row, joined with single
    spaces, give a text of the same kind. *)
Lemma join_clean (l : list str) :
  Forall (fun x => x <> [] /\ clean_ends x /\ no_linebreak x = true
                   /\ no_double_space x = true) l ->
  (l <> [] -> join (lit " ") l <> [])
  /\ clean_ends (join (lit " ") l)
  /\ no_linebreak (join (lit " ") l) = true
  /\ no_double_space (join (lit " ") l) = true.
Proof.
  induction 1 as [|x l (Hne & [Hh Hl] & Hlb & Hds) Hrest IH].
  - repeat split; try reflexivity. intros H; destruct (H eq_refl).
  - destruct l as [|y l'].
    + cbn [join]. repeat split; auto.
    + destruct IH as (Hj & [Hjh Hjl] & Hjlb & Hjds).
      specialize (Hj ltac:(discriminate)).
      rewrite join_step. set (J := join (lit " ") (y :: l')) in *.
      destruct J as [|d J'] eqn:EJ; [destruct (Hj eq_refl)|].
      destruct (rev x) as [|c r] eqn:Er.
      { destruct (Hne (proj1 (rev_nil_iff x) Er)). }
      assert (Hx : x = rev r ++ [c]).
      { rewrite <- (rev_involutive x), Er. reflexivity. }
      split; [destruct x; discriminate|]. split; [split|split].
      * destruct x; [contradiction|exact Hh].
      * rewrite rev_app_distr. cbn [rev]. rewrite <- !app_assoc.
        cbn [rev] in Hjl.
        destruct (rev J') as [|e r'] eqn:EJ'; cbn [app] in Hjl |- *; exact Hjl.
      * unfold no_linebreak in *. rewrite forallb_app, Hlb.
        change (32 :: d :: J') with ([32] ++ d :: J').
        rewrite forallb_app, Hjlb. reflexivity.
      * rewrite Hx. rewrite Hx in Hds.
        apply no_double_space_glue; assumption.
Qed.

Lemma extract_clean (env : Env) (html : str) :
  strip (extract_text_from_html env html) = extract_text_from_html env html
  /\ no_linebreak (extract_text_from_html env html) = true
  /\ no_double_space (extract_text_from_html env html) = true.
Proof.
  unfold extract_text_from_html.
  match goal with
  | |- context [join (lit " ") ?L] =>
      assert (Hall : Forall (fun x => x <> [] /\ clean_ends x
                                      /\ no_linebreak x = true
                                      /\ no_double_space x = true) L)
  end.
  { apply List.Forall_forall. intros x [Hin Hne]%filter_In.
    apply in_flat_map in Hin as (line' & Hline' & Hx).
    apply in_map_iff in Hline' as (line & <- & Hline).
    apply in_map_iff in Hx as (piece & <- & Hpiece).
    assert (Hlb : no_linebreak line = true).
    { pose proof (splitlines_from_clean
                    (length (soup_get_text env html))
                    (soup_get_text env html) [] (Nat.le_refl _) eq_refl) as H.
      rewrite List.Forall_forall in H. apply H, Hline. }
    pose proof (split_2sp_pieces (fun c => negb (islinebreak c))
                  (length (strip line)) (strip line) (Nat.le_refl _)
                  (strip_forallb _ line Hlb)) as Hp.
    rewrite List.Forall_forall in Hp. destruct (Hp piece Hpiece) as [Hp1 Hp2].
    split; [|split; [|split]].
    - intros E. rewrite E in Hne. discriminate Hne.
    - apply strip_clean_ends.
    - apply strip_forallb, Hp1.
    - apply strip_no_double_space, Hp2. }
  destruct (join_clean _ Hall) as (_ & Hc & Hlb & Hds).
  split; [apply strip_fixed, Hc|]. split; assumption.
Qed.

(** ** The chapters of a book *)

Lemma count_tokens_from_blank (prev : bool) (s : str) :
  forallb isspace s = false -> (1 <= count_tokens_from false s)%nat.
Proof.
  induction s as [|c s IH]; [discriminate|].
  cbn [forallb count_tokens_from]. destruct (isspace c); cbn [andb].
  - exact IH.
  - intros _. lia.
Qed.

(** A text that is not blank has a token. *)
Lemma count_tokens_positive (s : str) :
  strip s <> [] -> (1 <= count_tokens s)%nat.
Proof.
  intros H. apply (count_tokens_from_blank false).
  destruct (forallb isspace s) eqn:E; [|reflexivity].
  apply strip_nil_iff in E. contradiction.
Qed.

(** When the loop ends without raising, every document was UTF-8. *)
Lemma walk_items_ok_decodable (env : Env) (items : list EpubItem) :
  forall (acc : list Chapter) (n : nat) (chapters : list Chapter),
    walk_items env items acc n = Ok chapters -> all_decodable items.
Proof.
  unfold all_decodable.
  induction items as [|item rest IH]; intros acc n chapters H;
    [constructor|].
  cbn [walk_items] in H.
  destruct (Z.eqb_spec (item_type item) ITEM_DOCUMENT) as [Hdoc|Hdoc].
  - destruct (decode_utf8 (item_content item)) as [html|] eqn:Ed;
      [|discriminate H].
    constructor; [intros _; eauto|].
    destruct (_ <? 100); eapply IH; exact H.
  - constructor; [intros Hd; contradiction|]. eapply IH; exact H.
Qed.

(** The chapters the parser returns are the chapters of the book, with no
    condition on the archive: when it returns, every document was
    UTF-8. *)
Lemma parse_epub_file_returns (env : Env) (content : bytes)
  (fs : gmap str bytes) (chapters : list Chapter) :
  fst (parse_epub_file env content fs) = Ok chapters ->
  exists items,
    read_epub env content = Ok items /\ all_decodable items
    /\ chapters = book_chapters env items /\ chapters <> [].
Proof.
  rewrite parse_epub_file_run. cbv zeta.
  destruct (read_epub env content) as [items|e]; [|discriminate].
  destruct (walk_items env items [] 1) as [[|c l]|e] eqn:E; try discriminate.
  intros [= <-]. exists items.
  pose proof (walk_items_ok_decodable env items [] 1 _ E) as Hdec.
  rewrite (walk_items_spec env items Hdec [] 1) in E. injection E as E.
  split; [reflexivity|]. split; [exact Hdec|]. split; [|discriminate].
  symmetry. exact E.
Qed.

Lemma number_chapters_lookup (env : Env) (l : list EpubItem) :
  forall (n i : nat) (c : Chapter),
    nth_error (number_chapters env n l) i = Some c ->
    exists item,
      nth_error l i = Some item
      /\ c = Chapter_init (chapter_title (n + i) item)
                          (default [] (item_text env item)).
Proof.
  induction l as [|item l IH]; intros n i c H.
  - destruct i; discriminate H.
  - destruct i as [|i]; cbn [number_chapters nth_error] in H |- *.
    + injection H as <-. exists item. rewrite Nat.add_0_r. auto.
    + destruct (IH (S n) i c H) as (it & Hit & Hc). exists it.
      split; [exact Hit|]. rewrite Hc.
      replace (n + S i)%nat with (S n + i)%nat by lia. reflexivity.
Qed.

Lemma accepted_text (env : Env) (item : EpubItem) :
  accepted env item = true ->
  exists html,
    item_type item = ITEM_DOCUMENT
    /\ decode_utf8 (item_content item) = Some html
    /\ item_text env item = Some (extract_text_from_html env html)
    /\ 100 <= len (strip (extract_text_from_html env html)).
Proof.
  unfold accepted, item_text.
  intros [Hd Ht]%andb_true_iff. apply Z.eqb_eq in Hd.
  destruct (decode_utf8 (item_content item)) as [html|]; [|discriminate Ht].
  cbn [option_map] in Ht. apply Z.leb_le in Ht. exists html. auto.
Qed.

Lemma parse_epub_file_texts (env : Env) (content : bytes)
  (fs : gmap str bytes) (chapters : list Chapter) :
  fst (parse_epub_file env content fs) = Ok chapters ->
  exists items,
    read_epub env content = Ok items
    /\ Forall (fun c =>
                 100 <= len (text c) /\ strip (text c) = text c
                 /\ 1 <= word_count c
                 /\ exists item html,
                      In item items
                      /\ item_type item = ITEM_DOCUMENT
                      /\ decode_utf8 (item_content item) = Some html
                      /\ text c = extract_text_from_html env html
                      /\ word_count c
                         = Z.of_nat (count_tokens (soup_get_text env html)))
              chapters.
Proof.
  intros H. destruct (parse_epub_file_returns env content fs chapters H)
    as (items & Hread & _ & -> & _).
  exists items. split; [exact Hread|].
  apply List.Forall_forall. intros c Hc.
  apply In_nth_error in Hc as [i Hi].
  unfold book_chapters in Hi.
  apply number_chapters_lookup in Hi as (item & Hitem & ->).
  apply nth_error_In, filter_In in Hitem as [Hin Hacc].
  destruct (accepted_text env item Hacc) as (html & Hd & Hdec & Ht & Hlen).
  rewrite Ht. cbn [default text word_count Chapter_init]. unfold id.
  destruct (extract_clean env html) as (Hstrip & _ & _).
  rewrite Hstrip in Hlen.
  split; [exact Hlen|]. split; [exact Hstrip|]. split.
  - unfold len at 1. rewrite split_ws_length.
    assert (1 <= count_tokens (extract_text_from_html env html))%nat; [|lia].
    apply count_tokens_positive. rewrite Hstrip. intros E. rewrite E in Hlen.
    unfold len in Hlen. simpl in Hlen. lia.
  - exists item, html. split; [exact Hin|]. split; [exact Hd|].
    split; [exact Hdec|]. split; [reflexivity|].
    unfold len. rewrite extract_tokens, split_ws_length.
    reflexivity.
Qed.

(** ** What the fetch hands on *)

Lemma read_chunks_next (chunks : list bytes) (err : option exn) :
  forall (acc read content : bytes),
    len acc <= MAX_FILE_SIZE ->
    read_chunks chunks err acc = (read, Next content) ->
    err = None /\ content = acc ++ concat chunks /\ read = content
    /\ len content <= MAX_FILE_SIZE.
Proof.
  induction chunks as [|chunk rest IH]; intros acc read content Hacc H.
  - cbn [read_chunks] in H. destruct err; [discriminate|].
    injection H as <- <-. rewrite app_nil_r. auto.
  - cbn [read_chunks] in H.
    destruct (Z.gtb_spec (len (acc ++ chunk)) MAX_FILE_SIZE) as [Hgt|Hle];
      [discriminate|].
    destruct (IH _ _ _ Hle H) as (He & Hc & Hr & Hl).
    cbn [concat]. rewrite app_assoc. auto.
Qed.

Lemma detect_format_formats (name : str) (ct : option str) (f : str) :
  detect_format name ct = Ok f -> f = lit "txt" \/ f = lit "epub".
Proof.
  unfold detect_format.
  destruct (endswith _ _); [intros [= <-]; auto|].
  destruct (endswith _ _); [intros [= <-]; auto|].
  destruct ct as [[|c ct]|]; try discriminate.
  destruct (contains _ _); [intros [= <-]; auto|].
  destruct (contains _ _); [intros [= <-]; auto|discriminate].
Qed.

Lemma fetch_content_core (env : Env) (url : str) (content : bytes)
  (fmt : str) :
  snd (fetch env url) = Next (content, fmt) ->
  exists (response : Response) (chunks : list bytes),
    requests_get env url = Ok response
    /\ raise_for_status response = Ok tt
    /\ ~ declares_too_large response
    /\ iter_content response CHUNK_SIZE = (chunks, None)
    /\ content = concat chunks
    /\ fst (fetch env url) = content
    /\ len content <= MAX_FILE_SIZE
    /\ detect_format (filename_of_url url)
         (headers response !! lit "content-type") = Ok fmt
    /\ (fmt = lit "txt" \/ fmt = lit "epub").
Proof.
  unfold fetch.
  destruct (requests_get env url) as [response|e]; [|discriminate].
  destruct (raise_for_status response) as [[]|e] eqn:Hs; [|discriminate].
  pose proof (declared_too_large_true response) as Hdt.
  destruct (declared_too_large (headers response !! lit "content-length"))
    as [[|]|e]; try discriminate.
  destruct (iter_content response CHUNK_SIZE) as [chunks err] eqn:Hi.
  destruct (read_chunks chunks err []) as [read fl] eqn:Hr.
  destruct fl as [body|r|e]; try discriminate.
  destruct (detect_format _ _) as [f|e] eqn:Hf; [|discriminate].
  cbn [fst snd]. intros [= <- <-].
  assert (H0 : len ([] : bytes) <= MAX_FILE_SIZE)
    by (unfold len; rewrite max_file_size_value; simpl; lia).
  destruct (read_chunks_next chunks err [] read body H0 Hr)
    as (-> & Hc & -> & Hl).
  exists response, chunks. repeat split; auto.
  - intros Hd. apply Hdt in Hd. discriminate Hd.
  - eapply detect_format_formats. exact Hf.
Qed.


(** The only answer the fetch itself returns is "File too large". *)
Lemma fetch_return_too_large (env : Env) (url : str) (r : ProcessingResult) :
  snd (fetch env url) = Return r -> r = too_large.
Proof.
  unfold fetch.
  destruct (requests_get env url) as [response|e]; [|discriminate].
  destruct (raise_for_status response) as [[]|e]; [|discriminate].
  destruct (declared_too_large _) as [[|]|e]; try discriminate.
  - intros [= <-]. reflexivity.
  - destruct (iter_content response CHUNK_SIZE) as [chunks err].
    assert (H0 : len ([] : bytes) <= MAX_FILE_SIZE)
      by (unfold len; rewrite max_file_size_value; simpl; lia).
    destruct (read_chunks_spec chunks err [] H0) as (_ & Hret & _).
    destruct (read_chunks chunks err []) as [read fl]. cbn [snd] in Hret.
    destruct fl as [content|r'|e].
    + destruct (detect_format _ _); discriminate.
    + intros [= <-]. apply (Hret r' eq_refl).
    + discriminate.
Qed.

(** ** The modes of the handler *)

(** [url_request] is set exactly when the request says it is JSON, its
    body is an object, and the ["url"] of the object is a string: a body
    that is no JSON, a body that is a list, a string or a number, a missing
    ["url"] and a ["url"] that is no string all leave it [None], the errors
    on the way being swallowed. With a URL that is not empty the upload, if
    there is one, is not looked at. *)
Theorem read_url_request_some (env : Env) (request : Request)
  (url_request : URLRequest) :
  (read_url_request request = Some url_request
   <-> contains (lit "application/json")
         (default [] (req_headers request !! lit "content-type")) = true
       /\ exists m, req_json request = Ok (JObject m)
                    /\ m !! lit "url" = Some (JString (url url_request)))
  /\ (read_url_request request = Some url_request -> url url_request <> [] ->
      forall file fs,
        process_file env request file fs = process_file env request None fs).
Proof.
  split.
  - unfold read_url_request. destruct url_request as [u]. cbn [url].
    destruct (contains _ _); [|split; [discriminate|intros [H _]; discriminate H]].
    split.
    + destruct (req_json request) as [body|e]; [|discriminate].
      cbn [rbind]. destruct body as [| | | | |l|m]; cbn [json_contains rbind];
        try discriminate.
      * destruct (contains _ _); discriminate.
      * destruct (existsb _ l); discriminate.
      * unfold json_getitem.
        destruct (m !! lit "url") as [v|] eqn:Em.
        -- rewrite bool_decide_eq_true_2 by eauto. cbn [rbind].
           destruct v; cbn [URLRequest_init rbind]; try discriminate.
           intros [= <-]. split; [reflexivity|]. exists m. auto.
        -- rewrite bool_decide_eq_false_2; [discriminate|].
           intros [v Hv]. discriminate Hv.
    + intros [_ (m & -> & Hm)]. cbn [rbind json_contains].
      unfold json_getitem. rewrite Hm.
      rewrite bool_decide_eq_true_2 by eauto. reflexivity.
  - intros Hr Hu file fs. unfold process_file. rewrite Hr.
    destruct (url url_request); [destruct (Hu eq_refl)|reflexivity].
Qed.

(** ** The answers of the handler *)

Lemma epub_error_http (e : exn) :
  exists code detail, epub_error e = HTTPException code detail.
Proof. destruct e; eexists _, _; reflexivity. Qed.

Lemma parse_epub_file_raises (env : Env) (content : bytes)
  (fs : gmap str bytes) (e : exn) :
  fst (parse_epub_file env content fs) = Raise e ->
  exists code detail, e = HTTPException code detail.
Proof.
  rewrite parse_epub_file_run. cbv zeta.
  destruct (read_epub env content) as [items|e'].
  - destruct (walk_items env items [] 1) as [[|c l]|e'']; intros [= <-].
    + eexists _, _. reflexivity.
    + apply epub_error_http.
  - intros [= <-]. apply epub_error_http.
Qed.

(** The temporary file is the only file the parser touches. *)
Lemma parse_epub_file_frame (env : Env) (content : bytes)
  (fs : gmap str bytes) (path : str) :
  path <> mktemp env fs ->
  snd (parse_epub_file env content fs) !! path = fs !! path.
Proof.
  intros Hp. rewrite parse_epub_file_run. cbv zeta.
  destruct (read_epub env content) as [items|e].
  - destruct (walk_items env items [] 1) as [[|c l]|e]; cbn [snd].
    + rewrite lookup_delete_ne by auto. apply lookup_insert_ne. auto.
    + rewrite lookup_delete_ne by auto. apply lookup_insert_ne. auto.
    + apply lookup_insert_ne. auto.
  - cbn [snd]. apply lookup_insert_ne. auto.
Qed.

(** The parsing stage, for the two formats: it answers with the chapters
    of the parser, or with "Parse error". *)
Lemma process_content_cases (env : Env) (content : bytes)
  (fmt source : str) (fs : gmap str bytes) :
  fmt = lit "txt" \/ fmt = lit "epub" ->
  (exists chapters,
      fst (process_content env content fmt source fs)
      = Ok (build_response chapters source fmt)
      /\ ((fmt = lit "txt" /\ parse_txt_file content = Ok chapters)
          \/ (fmt = lit "epub"
              /\ fst (parse_epub_file env content fs) = Ok chapters)))
  \/ (exists detail,
        fst (process_content env content fmt source fs)
        = Ok (Failure (lit "Parse error") detail)).
Proof.
  intros [-> | ->]; unfold process_content, try_except, bind, lift, ret.
  - change (str_eqb (lit "txt") (lit "txt")) with true. cbv iota.
    unfold parse_txt_file.
    destruct (strip _) as [|c t] eqn:E.
    + right. eexists. reflexivity.
    + left. eexists. split; [reflexivity|]. left. split; reflexivity.
  - change (str_eqb (lit "epub") (lit "txt")) with false.
    change (str_eqb (lit "epub") (lit "epub")) with true. cbv beta iota.
    destruct (parse_epub_file env content fs) as [[chapters|e] fs'] eqn:E.
    + left. exists chapters. split; [reflexivity|]. right.
      split; reflexivity.
    + right. assert (He : fst (parse_epub_file env content fs) = Raise e)
        by (rewrite E; reflexivity).
      apply parse_epub_file_raises in He as (code & detail & ->).
      eexists. reflexivity.
Qed.

Lemma process_content_frame (env : Env) (content : bytes)
  (fmt source : str) (fs : gmap str bytes) (path : str) :
  path <> mktemp env fs ->
  snd (process_content env content fmt source fs) !! path = fs !! path.
Proof.
  intros Hp. unfold process_content, try_except, bind, lift, ret.
  destruct (str_eqb fmt (lit "txt")).
  - destruct (parse_txt_file content) as [c|e]; [reflexivity|].
    destruct e; reflexivity.
  - destruct (str_eqb fmt (lit "epub")); [|reflexivity]. cbv beta.
    pose proof (parse_epub_file_frame env content fs path Hp) as Hf.
    destruct (parse_epub_file env content fs) as [[chapters|e] fs'].
    + exact Hf.
    + destruct e; exact Hf.
Qed.

(** The handler before the parsing stage: it answers at once with one of
    six errors, or an exception leaves it, or it hands content of one of
    the two formats to the parsing stage. *)
Lemma process_file_cases (env : Env) (request : Request)
  (file : option UploadFile) (fs : gmap str bytes) :
  (exists error message,
      process_file env request file fs = (Ok (Failure error message), fs)
      /\ In error [ lit "Invalid URL"; lit "File too large"; lit "Timeout";
                    lit "Fetch failed"; lit "Invalid format";
                    lit "Missing input" ])
  \/ (exists e, process_file env request file fs = (Raise e, fs))
  \/ (exists content fmt source,
        (fmt = lit "txt" \/ fmt = lit "epub")
        /\ process_file env request file fs
           = process_content env content fmt source fs).
Proof.
  unfold process_file.
  assert (Hflow : forall fl : flow (bytes * str * str),
             (forall r, fl = Return r ->
                exists error message,
                  r = Failure error message
                  /\ In error [ lit "Invalid URL"; lit "File too large";
                                lit "Timeout"; lit "Fetch failed";
                                lit "Invalid format"; lit "Missing input" ]) ->
             (forall content fmt source, fl = Next (content, fmt, source) ->
                fmt = lit "txt" \/ fmt = lit "epub") ->
             (exists error message,
                 match fl with
                 | Next (content, file_format, source) =>
                     process_content env content file_format source
                 | Return r => ret r
                 | Throw e => raise e
                 end fs = (Ok (Failure error message), fs)
                 /\ In error [ lit "Invalid URL"; lit "File too large";
                               lit "Timeout"; lit "Fetch failed";
                               lit "Invalid format"; lit "Missing input" ])
             \/ (exists e,
                   match fl with
                   | Next (content, file_format, source) =>
                       process_content env content file_format source
                   | Return r => ret r
                   | Throw e => raise e
                   end fs = (Raise e, fs))
             \/ (exists content fmt source,
                   (fmt = lit "txt" \/ fmt = lit "epub")
                   /\ match fl with
                      | Next (content, file_format, source) =>
                          process_content env content file_format source
                      | Return r => ret r
                      | Throw e => raise e
                      end fs = process_content env content fmt source fs)).
  { intros [[[content fmt] source]|r|e] Hr Hn.
    - right; right. exists content, fmt, source.
      split; [eapply Hn; reflexivity|reflexivity].
    - left. destruct (Hr r eq_refl) as (error & message & -> & Hin).
      exists error, message. split; [reflexivity|exact Hin].
    - right; left. exists e. reflexivity. }
  assert (Hupload : forall f : UploadFile,
             (forall r, upload_mode f = Return r ->
                exists error message,
                  r = Failure error message
                  /\ In error [ lit "Invalid URL"; lit "File too large";
                                lit "Timeout"; lit "Fetch failed";
                                lit "Invalid format"; lit "Missing input" ])
             /\ (forall content fmt source,
                    upload_mode f = Next (content, fmt, source) ->
                    fmt = lit "txt" \/ fmt = lit "epub")).
  { intros f. unfold upload_mode. destruct (_ >? _).
    - split; [|discriminate]. intros r [= <-]. eexists _, _.
      split; [reflexivity|]. cbn. tauto.
    - destruct (detect_format _ _) as [fmt|e] eqn:Ef.
      + split; [discriminate|]. intros c f' s [= <- <- <-].
        eapply detect_format_formats; exact Ef.
      + apply detect_format_error in Ef. subst e.
        split; [|discriminate]. intros r [= <-]. eexists _, _.
        split; [reflexivity|]. cbn. tauto. }
  assert (Hmissing :
            (forall r, upload_or_missing file = Return r ->
               exists error message,
                 r = Failure error message
                 /\ In error [ lit "Invalid URL"; lit "File too large";
                               lit "Timeout"; lit "Fetch failed";
                               lit "Invalid format"; lit "Missing input" ])
            /\ (forall content fmt source,
                   upload_or_missing file = Next (content, fmt, source) ->
                   fmt = lit "txt" \/ fmt = lit "epub")).
  { unfold upload_or_missing. destruct file as [f|]; [apply Hupload|].
    split; [|discriminate]. intros r [= <-]. eexists _, _.
    split; [reflexivity|]. cbn. tauto. }
  destruct (read_url_request request) as [r|];
    [|apply Hflow; apply Hmissing].
  destruct (url r) as [|c u] eqn:Eu; [apply Hflow; apply Hmissing|].
  apply Hflow.
  - unfold url_mode. rewrite Eu.
    destruct (validate_url env (strip (c :: u))) as [[|] msg]; cbn [negb].
    + pose proof (fetch_return_too_large env (strip (c :: u))) as Hret.
      destruct (snd (fetch env (strip (c :: u)))) as [[content fmt]|r'|e].
      * discriminate.
      * intros r0 [= <-]. rewrite (Hret r' eq_refl). eexists _, _.
        split; [reflexivity|]. cbn. tauto.
      * destruct e; cbn [fetch_except]; try discriminate;
          intros r0 [= <-]; eexists _, _; (split; [reflexivity|]);
          cbn; tauto.
    + intros r0 [= <-]. eexists _, _. split; [reflexivity|]. cbn. tauto.
  - unfold url_mode. rewrite Eu.
    destruct (validate_url env (strip (c :: u))) as [[|] msg]; cbn [negb];
      [|discriminate].
    destruct (snd (fetch env (strip (c :: u)))) as [[content fmt]|r'|e] eqn:Ef.
    + intros c0 f0 s0 [= <- <- <-].
      destruct (fetch_content_core env _ _ _ Ef) as (resp & chunks & H).
      tauto.
    + discriminate.
    + destruct e; cbn [fetch_except]; discriminate.
Qed.

(** The answers with [success: false] carry one of seven errors. The
    answers "Unsupported format" and "Processing error" of the source are
    never given: format detection knows two formats only, and the parsers
    raise nothing but [HTTPException]. *)
Theorem process_file_error_kinds (env : Env) (request : Request)
  (file : option UploadFile) (fs : gmap str bytes) (error message : str) :
  fst (process_file env request file fs) = Ok (Failure error message) ->
  In error ANSWER_ERRORS.
Proof.
  intros H. unfold ANSWER_ERRORS.
  destruct (process_file_cases env request file fs)
    as [(e' & m' & Hp & Hin)|[(e' & Hp)|(content & fmt & source & Hf & Hp)]];
    rewrite Hp in H.
  - injection H as <- <-. cbn [In] in Hin |- *. tauto.
  - discriminate H.
  - destruct (process_content_cases env content fmt source fs Hf)
      as [(chapters & Hc & _)|(detail & Hc)]; rewrite Hc in H.
    + discriminate H.
    + injection H as <- <-. cbn [In]. tauto.
Qed.

Lemma process_file_error_kinds_witness :
  fst (process_file Cases.env
         (Sample.url_request (lit "http://example.com/slow")) None ∅)
  = Ok (Failure (lit "Timeout") (lit "Request timed out. Please try again."))
  /\ In (lit "Timeout") ANSWER_ERRORS.
Proof.
  split; [vm_compute; reflexivity|].
  apply (process_file_error_kinds Cases.env
           (Sample.url_request (lit "http://example.com/slow")) None ∅
           (lit "Timeout") (lit "Request timed out. Please try again.")).
  vm_compute. reflexivity.
Defined.

(** The handler touches no file but the temporary file of the EPUB parser:
    every other path holds after the call what it held before. *)
Theorem process_file_frame (env : Env) (request : Request)
  (file : option UploadFile) (fs : gmap str bytes) (path : str) :
  path <> mktemp env fs ->
  snd (process_file env request file fs) !! path = fs !! path.
Proof.
  intros Hp.
  destruct (process_file_cases env request file fs)
    as [(e' & m' & H & _)|[(e' & H)|(content & fmt & source & _ & H)]];
    rewrite H; try reflexivity.
  apply process_content_frame, Hp.
Qed.

Lemma process_file_frame_witness :
  snd (process_file Sample.env Cases.upload_request
         (Some {| filename := lit "junk.epub"; content_type := None;
                  file_read := blit "not an archive" |})
         (<[lit "/srv/keep.txt" := blit "kept"]> ∅))
    !! lit "/srv/keep.txt"
  = (<[lit "/srv/keep.txt" := blit "kept"]> ∅ : gmap str bytes)
      !! lit "/srv/keep.txt".
Proof.
  apply (process_file_frame Sample.env Cases.upload_request
           (Some {| filename := lit "junk.epub"; content_type := None;
                    file_read := blit "not an archive" |})
           (<[lit "/srv/keep.txt" := blit "kept"]> ∅)
           (lit "/srv/keep.txt")).
  vm_compute. discriminate.
Defined.

Lemma strip_strip (s : str) : strip (strip s) = strip s.
Proof. apply strip_fixed, strip_clean_ends. Qed.

Lemma total_words_bound (chapters : list Chapter) :
  Forall (fun c => 1 <= word_count c) chapters ->
  Z.of_nat (length chapters)
  <= fold_right Z.add 0 (map word_count chapters).
Proof.
  induction 1 as [|c l Hc _ IH]; [reflexivity|].
  cbn [length map fold_right]. lia.
Qed.

(** An answer with [success: true] holds at least one chapter; every
    chapter has a text that is not empty and has no white space at either
    end, and at least one word; [total_words] is the sum of the word counts
    and so at least the number of chapters; the format is [txt], with the
    single chapter [Untitled], or [epub]. *)
Theorem process_file_success (env : Env) (request : Request)
  (file : option UploadFile) (fs : gmap str bytes)
  (chapters : list Chapter) (total_words : Z) (source fmt : str) :
  fst (process_file env request file fs)
  = Ok (Success chapters total_words source fmt) ->
  chapters <> []
  /\ Forall (fun c => text c <> [] /\ strip (text c) = text c
                      /\ 1 <= word_count c) chapters
  /\ total_words = fold_right Z.add 0 (map word_count chapters)
  /\ Z.of_nat (length chapters) <= total_words
  /\ ((fmt = lit "txt"
       /\ exists c, chapters = [c] /\ title c = lit "Untitled")
      \/ fmt = lit "epub").
Proof.
  intros H.
  destruct (process_file_cases env request file fs)
    as [(e' & m' & Hp & _)|[(e' & Hp)|(content & f & src & Hf & Hp)]];
    rewrite Hp in H; try discriminate H.
  destruct (process_content_cases env content f src fs Hf)
    as [(chs & Hc & Hparse)|(detail & Hc)]; rewrite Hc in H;
    [|discriminate H].
  unfold build_response in H. injection H as <- <- <- <-.
  assert (Hall : chs <> []
                 /\ Forall (fun c => text c <> [] /\ strip (text c) = text c
                                     /\ 1 <= word_count c) chs
                 /\ ((f = lit "txt"
                      /\ exists c, chs = [c] /\ title c = lit "Untitled")
                     \/ f = lit "epub")).
  { destruct Hparse as [[-> Ht]|[-> He]].
    - unfold parse_txt_file in Ht.
      destruct (strip _) as [|ch t] eqn:E; [discriminate Ht|].
      injection Ht as <-. split; [discriminate|]. split.
      + constructor; [|constructor]. cbn [text word_count Chapter_init].
        split; [discriminate|]. split; [rewrite <- E; apply strip_strip|].
        unfold len. rewrite split_ws_length.
        assert (1 <= count_tokens (ch :: t))%nat; [|lia].
        apply count_tokens_positive. rewrite <- E, strip_strip, E.
        discriminate.
      + left. split; [reflexivity|]. eexists. split; reflexivity.
    - split.
      + destruct (parse_epub_file_returns env content fs chs He)
          as (_ & _ & _ & _ & Hne). exact Hne.
      + split; [|right; reflexivity].
        destruct (parse_epub_file_texts env content fs chs He)
          as (items & _ & Ht).
        eapply List.Forall_impl; [|exact Ht].
        intros c (Hlen & Hs & Hw & _). split; [|auto].
        intros E. rewrite E in Hlen. unfold len in Hlen. simpl in Hlen. lia. }
  destruct Hall as (Hne & Hf' & Hfmt).
  split; [exact Hne|]. split; [exact Hf'|]. split; [reflexivity|].
  split; [|exact Hfmt].
  apply total_words_bound. eapply List.Forall_impl; [|exact Hf'].
  intros c (_ & _ & Hw). exact Hw.
Qed.

Lemma process_file_success_witness :
  fst (process_file Sample.env
         (Sample.url_request (lit "http://example.com/book.txt")) None ∅)
  = Ok (Success [Chapter_init (lit "Untitled") (lit "hello world")] 2
          (lit "http://example.com/book.txt") (lit "txt"))
  /\ 2 = fold_right Z.add 0
           (map word_count [Chapter_init (lit "Untitled") (lit "hello world")]).
Proof.
  split; [vm_compute; reflexivity|].
  destruct (process_file_success Sample.env
              (Sample.url_request (lit "http://example.com/book.txt")) None ∅
              [Chapter_init (lit "Untitled") (lit "hello world")] 2
              (lit "http://example.com/book.txt") (lit "txt"))
    as (_ & _ & H & _); [vm_compute; reflexivity|exact H].
Defined.

(** An upload is refused as too large exactly when it holds more than
    [MAX_FILE_SIZE] bytes (a file of exactly 50 MiB passes), whatever its
    name and content type; no other path of upload mode gives that
    answer. *)
Theorem upload_too_large_iff (env : Env) (request : Request)
  (file : UploadFile) (fs : gmap str bytes) :
  no_url request ->
  (fst (process_file env request (Some file) fs) = Ok too_large
   <-> MAX_FILE_SIZE < len (file_read file)).
Proof.
  intros Hno. unfold no_url in Hno.
  assert (Hrun : process_file env request (Some file) fs
                 = match upload_mode file with
                   | Next (content, file_format, source) =>
                       process_content env content file_format source fs
                   | Return r => (Ok r, fs)
                   | Throw e => (Raise e, fs)
                   end).
  { unfold process_file, upload_or_missing.
    destruct (read_url_request request) as [r|].
    - rewrite Hno. destruct (upload_mode file) as [[[c f] s]|r'|e]; reflexivity.
    - destruct (upload_mode file) as [[[c f] s]|r'|e]; reflexivity. }
  rewrite Hrun. unfold upload_mode.
  destruct (Z.gtb_spec (len (file_read file)) MAX_FILE_SIZE) as [Hgt|Hle].
  - split; [intros _; exact Hgt|reflexivity].
  - split; [|lia].
    destruct (detect_format _ _) as [fmt|e] eqn:Ef.
    + destruct (process_content_cases env (file_read file) fmt
                  (filename file) fs (detect_format_formats _ _ _ Ef))
        as [(chs & Hc & _)|(detail & Hc)]; rewrite Hc; discriminate.
    + apply detect_format_error in Ef. subst e. discriminate.
Qed.

Lemma upload_too_large_iff_witness :
  fst (process_file Sample.env Cases.upload_request
         (Some {| filename := lit "note.txt"; content_type := None;
                  file_read := blit "a short note" |}) ∅)
  = Ok too_large
  <-> MAX_FILE_SIZE < len (blit "a short note").
Proof.
  apply (upload_too_large_iff Sample.env Cases.upload_request
           {| filename := lit "note.txt"; content_type := None;
              file_read := blit "a short note" |} ∅).
  vm_compute. exact I.
Defined.

(** ** The failures of the fetch *)

Lemma url_mode_run (env : Env) (request : Request)
  (file : option UploadFile) (fs : gmap str bytes) (r : URLRequest) :
  read_url_request request = Some r -> url r <> [] ->
  fst (validate_url env (strip (url r))) = true ->
  process_file env request file fs
  = match snd (fetch env (strip (url r))) with
    | Next (content, file_format) =>
        process_content env content file_format (strip (url r)) fs
    | Return answer => (Ok answer, fs)
    | Throw e =>
        match @fetch_except (bytes * str * str) e with
        | Return answer => (Ok answer, fs)
        | _ => (Raise e, fs)
        end
    end.
Proof.
  intros Hr Hu Hv. unfold process_file. rewrite Hr.
  destruct (url r) as [|c u] eqn:Eu; [destruct (Hu eq_refl)|].
  unfold url_mode. rewrite Eu.
  destruct (validate_url env (strip (c :: u))) as [ok msg]. cbn [fst] in Hv.
  subst ok. cbn [negb].
  destruct (snd (fetch env (strip (c :: u)))) as [[content fmt]|answer|e];
    try reflexivity.
  destruct e; reflexivity.
Qed.

(** In URL mode, for a URL the validator allowed: a timeout of the request
    is answered "Timeout"; any other failure of the requests library is
    answered "Fetch failed" with its text; and so is a response whose
    status is 400 to 599, with the text of the [HTTPError], the headers and
    the body of such a response not being read. *)
Theorem process_file_fetch_failures (env : Env) (request : Request)
  (file : option UploadFile) (fs : gmap str bytes) (r : URLRequest) :
  read_url_request request = Some r -> url r <> [] ->
  fst (validate_url env (strip (url r))) = true ->
  (forall msg,
      requests_get env (strip (url r)) = Raise (Timeout msg) ->
      process_file env request file fs
      = (Ok (Failure (lit "Timeout")
               (lit "Request timed out. Please try again.")), fs))
  /\ (forall msg,
        requests_get env (strip (url r)) = Raise (RequestException msg) ->
        process_file env request file fs
        = (Ok (Failure (lit "Fetch failed")
                 (lit "Failed to fetch URL: " ++ msg)), fs))
  /\ (forall response,
        requests_get env (strip (url r)) = Ok response ->
        400 <= status_code response < 600 ->
        fst (fetch env (strip (url r))) = []
        /\ process_file env request file fs
           = (Ok (Failure (lit "Fetch failed")
                    (lit "Failed to fetch URL: "
                     ++ str_of_nat (Z.to_nat (status_code response))
                     ++ (if status_code response <? 500
                         then lit " Client Error: "
                         else lit " Server Error: ")
                     ++ reason response ++ lit " for url: "
                     ++ response_url response)), fs)).
Proof.
  intros Hr Hu Hv. rewrite (url_mode_run env request file fs r Hr Hu Hv).
  unfold fetch. split; [|split].
  - intros msg ->. reflexivity.
  - intros msg ->. reflexivity.
  - intros response -> Hstatus. unfold raise_for_status.
    destruct (Z.ltb_spec (status_code response) 500) as [Hlt|Hge].
    + replace (400 <=? status_code response) with true
        by (symmetry; apply Z.leb_le; lia).
      split; reflexivity.
    + rewrite andb_false_r.
      replace (500 <=? status_code response) with true
        by (symmetry; apply Z.leb_le; lia).
      replace (status_code response <? 600) with true
        by (symmetry; apply Z.ltb_lt; lia).
      split; reflexivity.
Qed.

Lemma process_file_fetch_failures_witness :
  process_file Cases.env
    (Sample.url_request (lit "http://example.com/gone.txt")) None ∅
  = (Ok (Failure (lit "Fetch failed")
           (lit "Failed to fetch URL: 404 Client Error: Not Found for url: http://example.com/gone.txt")),
     ∅)
  /\ process_file Cases.env
       (Sample.url_request (lit "http://example.com/reset")) None ∅
     = (Ok (Failure (lit "Fetch failed")
              (lit "Failed to fetch URL: Connection aborted.")), ∅).
Proof.
  split.
  - destruct (process_file_fetch_failures Cases.env
                (Sample.url_request (lit "http://example.com/gone.txt"))
                None ∅ {| url := lit "http://example.com/gone.txt" |})
      as (_ & _ & H).
    + vm_compute. reflexivity.
    + discriminate.
    + vm_compute. reflexivity.
    + destruct (H {| status_code := 404; reason := lit "Not Found";
                     response_url := lit "http://example.com/gone.txt";
                     headers := <[lit "content-type" := lit "text/plain"]> ∅;
                     iter_content := fun _ => ([blit "no such page"], None) |})
        as [_ H'].
      * reflexivity.
      * cbn [status_code]. lia.
      * exact H'.
  - destruct (process_file_fetch_failures Cases.env
                (Sample.url_request (lit "http://example.com/reset"))
                None ∅ {| url := lit "http://example.com/reset" |})
      as (_ & H & _).
    + vm_compute. reflexivity.
    + discriminate.
    + vm_compute. reflexivity.
    + apply (H (lit "Connection aborted.")). reflexivity.
Defined.

(** ** What the validator allows *)

Lemma gethostbyname_v4 (env : Env) (host : str) (a : ip_address) :
  gethostbyname env host = Ok a -> exists ip, a = IPv4Address ip.
Proof.
  unfold gethostbyname. destruct (dns env host) as [addrs|e]; [|discriminate].
  destruct (List.filter _ addrs) as [|b l] eqn:E; [discriminate|].
  intros [= <-].
  assert (Hin : In b (List.filter (fun a => ip_version a =? 4) addrs))
    by (rewrite E; left; reflexivity).
  apply filter_In in Hin as [_ Hv].
  destruct b as [ip|ip]; [exists ip; reflexivity|discriminate Hv].
Qed.

(** Whenever [validate_url] allows a URL, with an empty reason: the scheme
    is [http] or [https]; there is a host name, which is not empty and in
    lower case is neither [localhost] nor [0.0.0.0]; the lookup of that
    name succeeded; and the IPv4 address it gave is in no network of
    [PRIVATE_IP_RANGES], so, being an address of 32 bits, in none of the
    five blocked IPv4 ranges. *)
Theorem validate_url_allowed (env : Env) (url : str) :
  fst (validate_url env url) = true ->
  snd (validate_url env url) = []
  /\ exists parsed host ip,
       urlparse env url = Ok parsed
       /\ (scheme parsed = lit "http" \/ scheme parsed = lit "https")
       /\ hostname parsed = Some host /\ host <> []
       /\ lower host <> lit "localhost" /\ lower host <> lit "0.0.0.0"
       /\ gethostbyname env host = Ok (IPv4Address ip)
       /\ Forall (fun network =>
                    network_contains network (IPv4Address ip) = false)
                 PRIVATE_IP_RANGES
       /\ (0 <= ip < 2 ^ 32 -> ~ blocked4 ip).
Proof.
  unfold validate_url.
  destruct (urlparse env url) as [parsed|e]; [|discriminate].
  destruct (str_in (scheme parsed) [lit "http"; lit "https"]) eqn:Es;
    cbn [negb]; [|discriminate].
  destruct (hostname parsed) as [[|c host]|] eqn:Eh; try discriminate.
  destruct (is_private_ip env (c :: host)) eqn:Ep; [discriminate|].
  intros _. split; [reflexivity|].
  unfold is_private_ip in Ep.
  destruct (str_in (lower (c :: host)) _) eqn:El; [discriminate|].
  destruct (gethostbyname env (c :: host)) as [a|e] eqn:Eg; [|discriminate].
  destruct (gethostbyname_v4 env _ _ Eg) as [ip ->].
  exists parsed, (c :: host), ip.
  split; [reflexivity|]. split.
  { unfold str_in in Es. cbn [existsb] in Es.
    apply orb_true_iff in Es as [Es|Es];
      [left; apply str_eqb_eq; exact Es|].
    apply orb_true_iff in Es as [Es|Es]; [|discriminate].
    right; apply str_eqb_eq; exact Es. }
  split; [exact Eh|]. split; [discriminate|].
  unfold str_in in El. cbn [existsb] in El.
  apply orb_false_iff in El as [El1 El2].
  apply orb_false_iff in El2 as [El2 _].
  split; [intros E; apply str_eqb_eq in E; rewrite E in El1; discriminate|].
  split; [intros E; apply str_eqb_eq in E; rewrite E in El2; discriminate|].
  split; [exact Eg|]. split.
  - apply List.Forall_forall. intros network Hin.
    destruct (network_contains network (IPv4Address ip)) eqn:En;
      [|reflexivity].
    assert (existsb (fun r => network_contains r (IPv4Address ip))
              PRIVATE_IP_RANGES = true) as Hex
      by (apply existsb_exists; exists network; auto).
    rewrite Hex in Ep. discriminate Ep.
  - intros Hip Hb. apply private_ranges_v4 in Hb. rewrite Hb in Ep.
    discriminate Ep.
Qed.

Lemma validate_url_allowed_witness :
  validate_url Sample.env (lit "https://Example.com:8443/a/book.epub")
  = (true, [])
  /\ snd (validate_url Sample.env (lit "https://Example.com:8443/a/book.epub"))
     = []
  /\ exists parsed host ip,
       urlparse Sample.env (lit "https://Example.com:8443/a/book.epub")
       = Ok parsed
       /\ (scheme parsed = lit "http" \/ scheme parsed = lit "https")
       /\ hostname parsed = Some host /\ host <> []
       /\ lower host <> lit "localhost" /\ lower host <> lit "0.0.0.0"
       /\ gethostbyname Sample.env host = Ok (IPv4Address ip)
       /\ Forall (fun network =>
                    network_contains network (IPv4Address ip) = false)
                 PRIVATE_IP_RANGES
       /\ (0 <= ip < 2 ^ 32 -> ~ blocked4 ip).
Proof.
  split; [vm_compute; reflexivity|].
  apply (validate_url_allowed Sample.env
           (lit "https://Example.com:8443/a/book.epub")).
  vm_compute. reflexivity.
Defined.

(** ** More on the file name of a URL *)

Lemma split_on_clean (sep : Z) (s : str) :
  Forall (fun piece => forallb (fun c => negb (c =? sep)) piece = true)
         (split_on sep s).
Proof.
  induction s as [|c s IH]; [repeat constructor|].
  cbn [split_on]. destruct (c =? sep) eqn:E; [constructor; [reflexivity|exact IH]|].
  destruct (split_on sep s) as [|h t]; [repeat constructor; cbn; rewrite E; reflexivity|].
  inversion IH as [|? ? Hh Ht]; subst.
  constructor; [cbn [forallb]; rewrite E, Hh; reflexivity|exact Ht].
Qed.

Lemma take_until_forallb (f stop : Z -> bool) (s : str) :
  forallb f s = true -> forallb f (take_until stop s) = true.
Proof.
  induction s as [|c s IH]; [reflexivity|].
  cbn [forallb take_until]. intros [Hc Hs]%andb_true_iff.
  destruct (stop c); [reflexivity|]. cbn [forallb]. rewrite Hc, (IH Hs).
  reflexivity.
Qed.

(** The file name given to format detection holds neither [/] nor [?];
    and for a URL that ends in [/] it is empty, so that the extension
    decides nothing and the format is the one of the content type. *)
Theorem filename_of_url_shape (url : str) (ct : option str) :
  forallb (fun c => negb (c =? 47) && negb (c =? 63)) (filename_of_url url)
  = true
  /\ filename_of_url (url ++ [47]) = []
  /\ detect_format (filename_of_url (url ++ [47])) ct
     = match ct with
       | None | Some [] =>
           Raise (HTTPException 400
                    (lit "Unsupported file format. Supported: .txt, .epub"))
       | Some t =>
           if contains (lit "text/plain") t then Ok (lit "txt")
           else if contains (lit "epub") t then Ok (lit "epub")
           else Raise (HTTPException 400
                         (lit "Unsupported file format. Supported: .txt, .epub"))
       end.
Proof.
  assert (Hslash : filename_of_url (url ++ [47]) = []).
  { unfold filename_of_url. rewrite split_on_app.
    rewrite last_of_app by apply split_on_nonempty. reflexivity. }
  split; [|split; [exact Hslash|rewrite Hslash; reflexivity]].
  unfold filename_of_url. rewrite first_of_split_on.
  set (segment := last_of (split_on 47 url)).
  assert (H47 : forallb (fun c => negb (c =? 47)) segment = true).
  { apply (last_of_Forall
             (fun x => forallb (fun c => negb (c =? 47)) x = true));
      [reflexivity|apply split_on_clean]. }
  pose proof (take_until_forallb _ (fun c => c =? 63) segment H47) as H1.
  pose proof (take_until_clean (fun c => c =? 63) segment) as H2.
  rewrite forallb_forall in *. intros c Hc.
  rewrite (H1 c Hc), (H2 c Hc). reflexivity.
Qed.

(** ** The text and the chapters of EPUB documents *)

(** The normalization of white space keeps the words: the text
    [extract_text_from_html] returns has the tokens of the text of the
    document, in their order; so the word count of a chapter made from it
    is the number of tokens of the text of the document. *)
Theorem extract_text_keeps_tokens (env : Env) (html : str) :
  split_ws (extract_text_from_html env html)
  = split_ws (soup_get_text env html)
  /\ forall title,
       word_count (Chapter_init title (extract_text_from_html env html))
       = Z.of_nat (count_tokens (soup_get_text env html)).
Proof.
  split; [apply extract_tokens|].
  intros title. cbn [word_count Chapter_init]. unfold len.
  rewrite extract_tokens, split_ws_length. reflexivity.
Qed.

(** The text [extract_text_from_html] returns is normalized: it neither
    starts nor ends with white space, so that [strip] leaves it as it is
    and the filter of the EPUB parser measures the text itself; it holds no
    line boundary; and it holds no two spaces in a row. *)
Theorem extract_text_normal_form (env : Env) (html : str) :
  strip (extract_text_from_html env html) = extract_text_from_html env html
  /\ len (strip (extract_text_from_html env html))
     = len (extract_text_from_html env html)
  /\ no_linebreak (extract_text_from_html env html) = true
  /\ no_double_space (extract_text_from_html env html) = true.
Proof.
  destruct (extract_clean env html) as (Hs & Hl & Hd).
  split; [exact Hs|]. split; [rewrite Hs; reflexivity|]. split; assumption.
Qed.

Example extract_text_sample :
  extract_text_from_html Sample.env
    (lit "  Call me   Ishmael.
      Some years ago,	never mind
  how long.  ")
  = lit "Call me Ishmael. Some years ago,	never mind how long.".
Proof. vm_compute. reflexivity. Qed.

(** Every chapter of a parsed book holds the normalized text of one
    document of the archive, an item of the list [read_epub] gave for the
    content: at least 100 characters, with no white space at either end,
    and at least one word; its word count is the number of tokens of the
    text of that document before normalization. *)
Theorem parse_epub_file_chapter_texts (env : Env) (content : bytes)
  (fs : gmap str bytes) (chapters : list Chapter) :
  fst (parse_epub_file env content fs) = Ok chapters ->
  exists items,
    read_epub env content = Ok items
    /\ Forall (fun c =>
                 100 <= len (text c) /\ strip (text c) = text c
                 /\ 1 <= word_count c
                 /\ exists item html,
                      In item items
                      /\ item_type item = ITEM_DOCUMENT
                      /\ decode_utf8 (item_content item) = Some html
                      /\ text c = extract_text_from_html env html
                      /\ word_count c
                         = Z.of_nat (count_tokens (soup_get_text env html)))
              chapters.
Proof. apply parse_epub_file_texts. Qed.

Lemma parse_epub_file_chapter_texts_witness :
  fst (parse_epub_file Cases.env Cases.anthology ∅)
  = Ok [ Chapter_init (lit "Preface") (lit Sample.long_text);
         Chapter_init (lit "Chapter 2") (lit Sample.long_text) ]
  /\ exists items,
       read_epub Cases.env Cases.anthology = Ok items
       /\ Forall (fun c =>
                    100 <= len (text c) /\ strip (text c) = text c
                    /\ 1 <= word_count c
                    /\ exists item html,
                         In item items
                         /\ item_type item = ITEM_DOCUMENT
                         /\ decode_utf8 (item_content item) = Some html
                         /\ text c = extract_text_from_html Cases.env html
                         /\ word_count c
                            = Z.of_nat
                                (count_tokens
                                   (soup_get_text Cases.env html)))
                 [ Chapter_init (lit "Preface") (lit Sample.long_text);
                   Chapter_init (lit "Chapter 2") (lit Sample.long_text) ].
Proof.
  split; [vm_compute; reflexivity|].
  apply (parse_epub_file_chapter_texts Cases.env Cases.anthology ∅).
  vm_compute. reflexivity.
Defined.

(** The titles of a parsed book: the chapter at position [i] (from 0) is
    titled ["Chapter i+1"], or else by the name of an item of the archive,
    a name that is not empty and ends neither in [.html] nor in [.xhtml].
    The numbers follow the positions in the list returned, so the items
    that were filtered out leave no gap. *)
Theorem parse_epub_file_titles (env : Env) (content : bytes)
  (fs : gmap str bytes) (chapters : list Chapter) :
  fst (parse_epub_file env content fs) = Ok chapters ->
  forall (i : nat) (c : Chapter),
    nth_error chapters i = Some c ->
    title c = lit "Chapter " ++ str_of_nat (S i)
    \/ (title c <> [] /\ endswith (title c) (lit ".html") = false
        /\ endswith (title c) (lit ".xhtml") = false
        /\ exists items item,
             read_epub env content = Ok items /\ In item items
             /\ item_name item = Some (title c)).
Proof.
  intros H i c Hi.
  destruct (parse_epub_file_returns env content fs chapters H)
    as (items & Hread & _ & -> & _).
  unfold book_chapters in Hi.
  apply number_chapters_lookup in Hi as (item & Hitem & ->).
  apply nth_error_In, filter_In in Hitem as [Hin _].
  cbn [title Chapter_init]. unfold chapter_title, needs_fallback_title.
  destruct (item_name item) as [name|] eqn:En; [|left; reflexivity].
  destruct name as [|ch name]; [left; reflexivity|].
  cbn [str_eqb orb].
  destruct (endswith (ch :: name) (lit ".html")) eqn:E1; [left; reflexivity|].
  destruct (endswith (ch :: name) (lit ".xhtml")) eqn:E2; [left; reflexivity|].
  right. cbn [orb default]. unfold id.
  split; [discriminate|]. split; [exact E1|]. split; [exact E2|].
  exists items, item. auto.
Qed.

Lemma parse_epub_file_titles_witness :
  (title (Chapter_init (lit "Preface") (lit Sample.long_text))
   = lit "Chapter " ++ str_of_nat 1
   \/ (title (Chapter_init (lit "Preface") (lit Sample.long_text)) <> []
       /\ endswith (title (Chapter_init (lit "Preface") (lit Sample.long_text)))
            (lit ".html") = false
       /\ endswith (title (Chapter_init (lit "Preface") (lit Sample.long_text)))
            (lit ".xhtml") = false
       /\ exists items item,
            read_epub Cases.env Cases.anthology = Ok items /\ In item items
            /\ item_name item
               = Some (title (Chapter_init (lit "Preface")
                                (lit Sample.long_text)))))
  /\ title (Chapter_init (lit "Chapter 2") (lit Sample.long_text))
     = lit "Chapter 2".
Proof.
  split; [|reflexivity].
  assert (H : fst (parse_epub_file Cases.env Cases.anthology ∅)
              = Ok [ Chapter_init (lit "Preface") (lit Sample.long_text);
                     Chapter_init (lit "Chapter 2") (lit Sample.long_text) ])
    by (vm_compute; reflexivity).
  apply (parse_epub_file_titles Cases.env Cases.anthology ∅ _ H 0%nat).
  reflexivity.
Defined.

(** When the fetch hands content on to the parsers, that content is the
    whole body of a response that passed [raise_for_status]: the chunks of
    the stream in their order, with nothing dropped or added, at most
    [MAX_FILE_SIZE] bytes, the stream having ended without error. Its
    format is the one [detect_format] gives for the file name of the URL
    and the [Content-Type] of the response. *)
Theorem fetch_content (env : Env) (url : str) (content : bytes) (fmt : str) :
  snd (fetch env url) = Next (content, fmt) ->
  exists (response : Response) (chunks : list bytes),
    requests_get env url = Ok response
    /\ raise_for_status response = Ok tt
    /\ ~ declares_too_large response
    /\ iter_content response CHUNK_SIZE = (chunks, None)
    /\ content = concat chunks
    /\ fst (fetch env url) = content
    /\ len content <= MAX_FILE_SIZE
    /\ detect_format (filename_of_url url)
         (headers response !! lit "content-type") = Ok fmt
    /\ (fmt = lit "txt" \/ fmt = lit "epub").
Proof. apply fetch_content_core. Qed.

Lemma fetch_content_witness :
  exists (response : Response) (chunks : list bytes),
    requests_get Sample.env (lit "http://example.com/book.txt") = Ok response
    /\ raise_for_status response = Ok tt
    /\ ~ declares_too_large response
    /\ iter_content response CHUNK_SIZE = (chunks, None)
    /\ blit "hello world" = concat chunks
    /\ fst (fetch Sample.env (lit "http://example.com/book.txt"))
       = blit "hello world"
    /\ len (blit "hello world") <= MAX_FILE_SIZE
    /\ detect_format (filename_of_url (lit "http://example.com/book.txt"))
         (headers response !! lit "content-type") = Ok (lit "txt")
    /\ (lit "txt" = lit "txt" \/ lit "txt" = lit "epub").
Proof.
  apply (fetch_content Sample.env (lit "http://example.com/book.txt")
           (blit "hello world") (lit "txt")).
  reflexivity.
Defined.
